(** * Conway's Game of Life on a toroidal grid: a shallow embedding of
      [gameoflife.py] and the properties of its grid engine.

    Python integers are [Z]; the numpy grid is a list of rows; a Python
    exception is the [Raise] branch of [result].  The grid holds
    integer-valued floats (0.0 / 1.0, or whatever digits a seed file held),
    on which every operation used here is exact, so cells are [Z] too.
    What the program sends to the terminal (title, clearing, frames,
    pauses) is a list of events; the terminal size, the seed file and the
    random generator are inputs of the constructor. *)

From Stdlib Require Import ZArith String Ascii List Lia DecimalString Sorted.
From stdpp Require Import base numbers option list strings.

Local Open Scope Z_scope.

(** ** Exceptions and the error monad *)

Inductive exn : Type :=
  | TypeError
  | ValueError
  | IndexError
  | OSError
  | ZeroDivisionError
  | SystemExit.

Inductive result (A : Type) : Type :=
  | Ok (a : A)
  | Raise (e : exn).
Arguments Ok {A} a.
Arguments Raise {A} e.

Definition bind {A B : Type} (m : result A) (k : A -> result B) : result B :=
  match m with
  | Ok a => k a
  | Raise e => Raise e
  end.

Notation "'do' x <- m ; k" := (bind m (fun x => k))
  (at level 10, x pattern, m at level 100, k at level 200).

Definition is_ok {A : Type} (m : result A) : Prop :=
  match m with Ok _ => True | Raise _ => False end.

(** [for x in l: s = body(x, s)], stopping at the first exception. *)
Fixpoint for_each {A S : Type} (l : list A) (body : A -> S -> result S) (s : S)
  : result S :=
  match l with
  | [] => Ok s
  | x :: l' => do s' <- body x s; for_each l' body s'
  end.

(** [range(n)]: empty when [n <= 0]. *)
Definition range (n : Z) : list Z := Z.of_nat <$> seq 0 (Z.to_nat n).

(** ** numpy arrays *)

Module np.

(** A two-dimensional array, row by row. *)
Abbreviation ndarray := (list (list Z)) (only parsing).

Definition shape (a : ndarray) : nat * nat :=
  (length a, match a with [] => 0%nat | r :: _ => length r end).

(** The array really is [h] rows of [w] cells. *)
Definition rectangular (h w : nat) (a : ndarray) : Prop :=
  length a = h /\ Forall (fun r => length r = w) a.

(** [np.zeros((h, w))]; the constructor calls it with positive
    dimensions only. *)
Definition zeros (h w : Z) : ndarray :=
  replicate (Z.to_nat h) (replicate (Z.to_nat w) 0).

(** [np.empty_like(a)]: same shape, contents are whatever the memory
    held; [mem r c] is that content. *)
Definition empty_like (mem : nat -> nat -> Z) (a : ndarray) : ndarray :=
  let '(h, w) := shape a in
  (fun r => (fun c => mem r c) <$> seq 0 w) <$> seq 0 h.

(** An index into an axis of length [n]: negative indices count from
    the end, anything outside [-n, n) is an IndexError. *)
Definition index (n : nat) (k : Z) : result nat :=
  if bool_decide (0 <= k < Z.of_nat n) then Ok (Z.to_nat k)
  else if bool_decide (- Z.of_nat n <= k < 0) then Ok (Z.to_nat (k + Z.of_nat n))
  else Raise IndexError.

(** [a[r, c]] *)
Definition getitem (a : ndarray) (r c : Z) : result Z :=
  let '(h, w) := shape a in
  do i <- index h r;
  do j <- index w c;
  match a !! i with
  | Some row => match row !! j with
                | Some x => Ok x
                | None => Raise IndexError
                end
  | None => Raise IndexError
  end.

(** [a[r, c] = v] *)
Definition setitem (a : ndarray) (r c : Z) (v : Z) : result ndarray :=
  let '(h, w) := shape a in
  do i <- index h r;
  do j <- index w c;
  Ok (alter (fun row => <[j := v]> row) i a).

(** [np.mod(l, d)]: the sign follows the divisor; an integer modulus
    of zero gives 0 (with a warning). *)
Definition mod_ (l : list Z) (d : Z) : list Z :=
  (fun a => if d =? 0 then 0 else a mod d) <$> l.

(** [a[rows_idx, cols_idx]] with two index lists of the same length:
    the cells at the paired positions. *)
Fixpoint getitem_pairs (a : ndarray) (ri ci : list Z) : result (list Z) :=
  match ri, ci with
  | r :: ri', c :: ci' =>
      do x <- getitem a r c;
      do xs <- getitem_pairs a ri' ci';
      Ok (x :: xs)
  | _, _ => Ok []
  end.

Fixpoint getitem_row (a : ndarray) (r : Z) (ci : list Z) : result (list Z) :=
  match ci with
  | [] => Ok []
  | c :: ci' =>
      do x <- getitem a r c;
      do xs <- getitem_row a r ci';
      Ok (x :: xs)
  end.

(** [a[np.ix_(rows_idx, cols_idx)]]: the sub-matrix on the product of
    the two index lists. *)
Fixpoint getitem_ix (a : ndarray) (ri ci : list Z) : result ndarray :=
  match ri with
  | [] => Ok []
  | r :: ri' =>
      do row <- getitem_row a r ci;
      do rows <- getitem_ix a ri' ci;
      Ok (row :: rows)
  end.

Definition nonzero (x : Z) : bool := negb (x =? 0).

Definition count_nonzero_1d (l : list Z) : Z :=
  Z.of_nat (length (List.filter nonzero l)).

Definition count_nonzero (a : ndarray) : Z :=
  count_nonzero_1d (concat a).

Definition size (a : ndarray) : Z :=
  let '(h, w) := shape a in Z.of_nat h * Z.of_nat w.

(** The positions the slice [start:stop] selects on an axis of
    length [n]: a negative bound counts from the end, and both bounds
    are clamped to the axis. *)
Definition slice_indices (n : nat) (start stop : Z) : list nat :=
  let clamp x :=
    if x <? 0 then Z.max (x + Z.of_nat n) 0 else Z.min x (Z.of_nat n) in
  seq (Z.to_nat (clamp start)) (Z.to_nat (clamp stop - clamp start)).

(** The values assigned to [n] selected cells: as many values, or one
    value for all of them; anything else cannot be broadcast. *)
Definition broadcast (vals : list Z) (n : nat) : result (list Z) :=
  if Nat.eqb (length vals) n then Ok vals
  else match vals with
       | [v] => Ok (replicate n v)
       | _ => Raise ValueError
       end.

(** Cell [(i, j)] set to [v], positions already checked. *)
Definition put (a : ndarray) (i j : nat) (v : Z) : ndarray :=
  alter (fun row => <[j := v]> row) i a.

(** [a[start:stop, c] = vals] *)
Definition setitem_rows (a : ndarray) (start stop c : Z) (vals : list Z)
  : result ndarray :=
  let '(h, w) := shape a in
  do j <- index w c;
  let rows := slice_indices h start stop in
  do vs <- broadcast vals (length rows);
  Ok (fold_left (fun a iv => put a (fst iv) j (snd iv)) (zip rows vs) a).

(** [a[r, start:stop] = vals] *)
Definition setitem_cols (a : ndarray) (r start stop : Z) (vals : list Z)
  : result ndarray :=
  let '(h, w) := shape a in
  do i <- index h r;
  let cols := slice_indices w start stop in
  do vs <- broadcast vals (length cols);
  Ok (fold_left (fun a jv => put a i (fst jv) (snd jv)) (zip cols vs) a).

End np.

(** ** The Grid object *)

Record Grid : Type := mkGrid {
  clear : bool;
  fps : Z;
  born : list Z;
  survive : list Z;
  neighbourhood_type : string;
  width : Z;
  height : Z;
  grid : np.ndarray
}.

Definition with_grid (self : Grid) (a : np.ndarray) : Grid :=
  mkGrid (clear self) (fps self) (born self) (survive self)
         (neighbourhood_type self) (width self) (height self) a.

(** The view [_view] takes: a flat array of 5 cells (von Neumann) or a
    3 x 3 array (Moore). *)
Inductive view : Type :=
  | View1 (v : list Z)
  | View2 (v : np.ndarray).

Definition count_nonzero (v : view) : Z :=
  match v with
  | View1 l => np.count_nonzero_1d l
  | View2 a => np.count_nonzero a
  end.

(** The two index arrays [_view] builds ([cols] indexes the rows of the
    grid and [rows] its columns, as in the source); [None] for a
    neighbourhood type that is neither. *)
Definition _view_indices (self : Grid) (i j : Z) : option (list Z * list Z) :=
  if String.eqb (neighbourhood_type self) "vonneumann" then
    Some (np.mod_ [i; i; i; i - 1; i + 1] (height self),
          np.mod_ [j - 1; j; j + 1; j; j] (width self))
  else if String.eqb (neighbourhood_type self) "moore" then
    Some (np.mod_ [i - 1; i; i + 1] (height self),
          np.mod_ [j - 1; j; j + 1] (width self))
  else None.

Definition _view (self : Grid) (i j : Z) : result (view * Z) :=
  if String.eqb (neighbourhood_type self) "vonneumann" then
    let cols := np.mod_ [i; i; i; i - 1; i + 1] (height self) in
    let rows := np.mod_ [j - 1; j; j + 1; j; j] (width self) in
    do v <- np.getitem_pairs (grid self) cols rows;
    match v !! 1%nat with
    | Some cell => Ok (View1 v, cell)
    | None => Raise IndexError
    end
  else if String.eqb (neighbourhood_type self) "moore" then
    let cols := np.mod_ [i - 1; i; i + 1] (height self) in
    let rows := np.mod_ [j - 1; j; j + 1] (width self) in
    do v <- np.getitem_ix (grid self) cols rows;
    match v !! 1%nat with
    | Some row => match row !! 1%nat with
                  | Some cell => Ok (View2 v, cell)
                  | None => Raise IndexError
                  end
    | None => Raise IndexError
    end
  else Raise ValueError.

(** [n in l] on a list of integers. *)
Definition py_in (n : Z) (l : list Z) : bool := existsb (Z.eqb n) l.

Definition _update_cell (self : Grid) (i j : Z) : result Z :=
  do vc <- _view self i j;
  let v := fst vc in
  let cell_value := snd vc in
  let neighbour_alive_count := count_nonzero v - cell_value in
  if (cell_value =? 0) && py_in neighbour_alive_count (born self) then Ok 1
  else if (cell_value =? 1) && py_in neighbour_alive_count (survive self) then Ok 1
  else Ok 0.

(** The body of the inner loop of [update_grid]. *)
Definition update_one (self : Grid) (ij : Z * Z) (token_grid : np.ndarray)
  : result np.ndarray :=
  do v <- _update_cell self (fst ij) (snd ij);
  np.setitem token_grid (fst ij) (snd ij) v.

Definition update_grid (mem : nat -> nat -> Z) (self : Grid) : result Grid :=
  let token_grid := np.empty_like mem (grid self) in
  do token_grid <-
    for_each (range (height self))
      (fun i tg =>
         for_each (range (width self)) (fun j tg => update_one self (i, j) tg) tg)
      token_grid;
  Ok (with_grid self token_grid).

(** The loop of [update_grid] run over an arbitrary sequence of
    coordinates instead of row by row. *)
Definition update_cells (self : Grid) (order : list (Z * Z))
  (token_grid : np.ndarray) : result np.ndarray :=
  for_each order (update_one self) token_grid.

(** All coordinates of an [h] x [w] grid, row by row. *)
Definition row_major (h w : Z) : list (Z * Z) :=
  concat ((fun i => (fun j => (i, j)) <$> range w) <$> range h).

(** ** Configuration *)

(** What a caller may pass where the source tests for a boolean or a
    string. *)
Inductive pyval : Type :=
  | PyInt (n : Z)
  | PyBool (b : bool)
  | PyStr (s : string)
  | PyNone.

Definition with_clear (self : Grid) (b : bool) : Grid :=
  mkGrid b (fps self) (born self) (survive self)
         (neighbourhood_type self) (width self) (height self) (grid self).

Definition with_fps (self : Grid) (v : Z) : Grid :=
  mkGrid (clear self) v (born self) (survive self)
         (neighbourhood_type self) (width self) (height self) (grid self).

Definition with_born (self : Grid) (l : list Z) : Grid :=
  mkGrid (clear self) (fps self) l (survive self)
         (neighbourhood_type self) (width self) (height self) (grid self).

Definition with_survive (self : Grid) (l : list Z) : Grid :=
  mkGrid (clear self) (fps self) (born self) l
         (neighbourhood_type self) (width self) (height self) (grid self).

Definition with_neighbourhood_type (self : Grid) (s : string) : Grid :=
  mkGrid (clear self) (fps self) (born self) (survive self)
         s (width self) (height self) (grid self).

Definition with_size (self : Grid) (w h : Z) : Grid :=
  mkGrid (clear self) (fps self) (born self) (survive self)
         (neighbourhood_type self) w h (grid self).

Definition set_clear_terminal (self : Grid) (value : pyval) : result Grid :=
  match value with
  | PyBool b => Ok (with_clear self b)
  | _ => Raise TypeError
  end.

Definition set_fps (self : Grid) (value : Z) : Grid := with_fps self value.

(** What [set_rules] may be passed for [born] and [survive]: a list of
    integers, an integer, or a value of another type.  (A boolean, which
    Python also counts as an integer, is left out.) *)
Inductive rule_arg : Type :=
  | RuleList (l : list Z)
  | RuleInt (n : Z)
  | RuleOther.

Definition set_rules (self : Grid) (born_arg survive_arg : rule_arg) : result Grid :=
  do self <-
    match born_arg with
    | RuleList l => Ok (with_born self l)
    | RuleInt n => Ok (with_born self [n])
    | RuleOther => Raise TypeError
    end;
  match survive_arg with
  | RuleList l => Ok (with_survive self l)
  | RuleInt n => Ok (with_survive self [n])
  | RuleOther => Raise TypeError
  end.

(** [str(n)] for an integer. *)
Definition str (n : Z) : string := NilZero.string_of_int (Z.to_int n).

(** ["".join(map(str, l))] *)
Definition join_str (l : list Z) : string :=
  fold_right (fun n acc => String.append (str n) acc) EmptyString l.

Definition get_rules (self : Grid) : string :=
  String.append "B"
    (String.append (join_str (born self))
       (String.append "/S" (join_str (survive self)))).

(** [c.lower()] on ASCII. *)
Definition lower_ascii (c : ascii) : ascii :=
  let n := nat_of_ascii c in
  if ((65 <=? n) && (n <=? 90))%nat then ascii_of_nat (n + 32) else c.

Fixpoint lower (s : string) : string :=
  match s with
  | EmptyString => EmptyString
  | String c s' => String (lower_ascii c) (lower s')
  end.

(** The lower-cased name is stored first and checked after; on the
    ValueError the caller gets no object back. *)
Definition set_neighbourhood_type (self : Grid) (neighbourhood_type_arg : pyval)
  : result Grid :=
  match neighbourhood_type_arg with
  | PyStr s =>
      let self := with_neighbourhood_type self (lower s) in
      if negb (String.eqb (neighbourhood_type self) "moore"
               || String.eqb (neighbourhood_type self) "vonneumann")
      then Raise ValueError
      else Ok self
  | _ => Raise TypeError
  end.

(** [max(l)]: a ValueError on the empty list. *)
Definition py_max (l : list Z) : result Z :=
  match l with
  | [] => Raise ValueError
  | x :: l' => Ok (fold_left Z.max l' x)
  end.

(** [max(self.born) > b or max(self.survive) > b], left to right. *)
Definition rules_over (self : Grid) (b : Z) : result bool :=
  do mb <- py_max (born self);
  if b <? mb then Ok true
  else do ms <- py_max (survive self); Ok (b <? ms).

(** The compatibility test at the top of [__init__]. *)
Definition check_compatible (self : Grid) : result Grid :=
  let moore := String.eqb (neighbourhood_type self) "moore" in
  do over_eight <- rules_over self 8;
  let vonneumann := String.eqb (neighbourhood_type self) "vonneumann" in
  do over_four <- rules_over self 4;
  if (moore && over_eight) || (vonneumann && over_four)
  then Raise ValueError
  else Ok self.

(** ** Seeding *)

Definition centre_offsets (self : Grid) (array : np.ndarray) : Z * Z :=
  let '(h, w) := np.shape array in
  ((height self - Z.of_nat h) / 2, (width self - Z.of_nat w) / 2).

(** The body of the inner loop of [centre_grid]; [int(...)] of an
    integer cell is the cell. *)
Definition place (array : np.ndarray) (hdiff wdiff : Z) (ij : Z * Z)
  (g : np.ndarray) : result np.ndarray :=
  do x <- np.getitem array (fst ij) (snd ij);
  np.setitem g (fst ij + hdiff) (snd ij + wdiff) x.

Definition centre_grid (self : Grid) (array : np.ndarray) : result Grid :=
  let '(h, w) := np.shape array in
  let hdiff := (height self - Z.of_nat h) / 2 in
  let wdiff := (width self - Z.of_nat w) / 2 in
  do g <-
    for_each (range (Z.of_nat h))
      (fun i g =>
         for_each (range (Z.of_nat w))
           (fun j g => place array hdiff wdiff (i, j) g) g)
      (grid self);
  Ok (with_grid self g).

(** In [a = b = 1] the targets are assigned from left to right. *)
Definition add_r_pentomino (self : Grid) : result Grid :=
  let mh := height self / 2 in
  let mw := width self / 2 in
  do g <- np.setitem_rows (grid self) (mh - 1) (mh + 2) mw [1; 1; 1];
  do g <- np.setitem g (mh - 1) (mw + 1) 1;
  do g <- np.setitem g mh (mw - 1) 1;
  Ok (with_grid self g).

Definition add_glider (self : Grid) : result Grid :=
  let mh := height self / 2 in
  let mw := width self / 2 in
  do g <- np.setitem_cols (grid self) (mh + 1) (mw - 1) (mw + 2) [1; 1; 1];
  do g <- np.setitem g mh (mw + 1) 1;
  do g <- np.setitem g (mh - 1) mw 1;
  Ok (with_grid self g).

(** What the constructor takes from outside: the terminal size, the
    array [np.genfromtxt] parses from a file, and the random generator's
    draw for a given shape. *)
Record Env : Type := mkEnv {
  get_terminal_size : Z * Z;
  genfromtxt : string -> result np.ndarray;
  rng_integers : Z -> Z -> np.ndarray
}.

Definition read_from_file (env : Env) (self : Grid) (fname : string)
  : result Grid :=
  do array <- genfromtxt env fname;
  centre_grid self array.

(** The object before [__init__] has assigned any attribute. *)
Definition blank : Grid := mkGrid false 0 [] [] EmptyString 0 0 [].

Definition __init__ (env : Env) (width_arg height_arg : option Z)
  (fname : option string) (random : bool) : result Grid :=
  do self <- set_clear_terminal blank (PyBool true);
  let self := set_fps self 60 in
  do self <- set_rules self (RuleList [3]) (RuleList [2; 3]);
  do self <- set_neighbourhood_type self (PyStr "Moore");
  do self <- check_compatible self;
  let '(cols, rows) := get_terminal_size env in
  let cols := cols - 1 in
  let rows := rows - 1 in
  let width_v :=
    match width_arg with
    | Some w => w
    | None => if cols mod 2 =? 0 then cols else cols - 1
    end in
  let height_v :=
    match height_arg with
    | Some h => h
    | None => if negb (rows mod 2 =? 0) then rows else rows - 1
    end in
  if (width_v <? 5) || (height_v <? 5) then Raise SystemExit
  else
    let self := with_size self (width_v - 2) (height_v - 2) in
    let self := with_grid self (np.zeros (height self) (width self)) in
    match fname with
    | Some f => read_from_file env self f
    | None =>
        if random
        then Ok (with_grid self (rng_integers env (height self) (width self)))
        else Ok self
    end.

(** ** Rendering and the animation loop *)

(** The em dash and the full block, as their UTF-8 bytes. *)
Definition em_dash : string :=
  String (ascii_of_nat 226) (String (ascii_of_nat 128)
    (String (ascii_of_nat 148) EmptyString)).

Definition full_block : string :=
  String (ascii_of_nat 226) (String (ascii_of_nat 150)
    (String (ascii_of_nat 136) EmptyString)).

Definition newline : string := String (ascii_of_nat 10) EmptyString.

(** [s * n]: empty for [n <= 0]. *)
Definition str_mul (s : string) (n : Z) : string :=
  fold_right String.append EmptyString (replicate (Z.to_nat n) s).

Definition render_row (row : list Z) : string :=
  fold_right
    (fun x acc => String.append (if np.nonzero x then full_block else " ") acc)
    EmptyString row.

(** [self.grid[i]] *)
Definition grid_row (self : Grid) (i : Z) : result (list Z) :=
  do k <- np.index (length (grid self)) i;
  match grid self !! k with
  | Some row => Ok row
  | None => Raise IndexError
  end.

Definition __str__ (self : Grid) : result string :=
  let bottom := str_mul em_dash (width self + 2) in
  let top := String.append bottom newline in
  do top <-
    for_each (range (height self))
      (fun i top =>
         do row <- grid_row self i;
         Ok (String.append top
               (String.append "|"
                  (String.append (render_row row) (String.append "|" newline)))))
      top;
  Ok (String.append top bottom).

Definition all_dead_or_alive (self : Grid) : bool :=
  let all_dead := np.count_nonzero (grid self) =? 0 in
  let all_alive := np.count_nonzero (grid self) =? np.size (grid self) in
  all_dead || all_alive.

(** What reaches the terminal. *)
Inductive event : Type :=
  | Title
  | Cls
  | Print (frame : string)
  | Sleep.

(** The state the loop threads: the object and the output so far. *)
Definition world : Type := (Grid * list event)%type.

(** [time.sleep(1 / fps)] *)
Definition pace (self : Grid) : result event :=
  if fps self =? 0 then Raise ZeroDivisionError
  else if fps self <? 0 then Raise ValueError
  else Ok Sleep.

Section Run.

(** Contents of the memory [np.empty_like] hands out. *)
Variable mem : nat -> nat -> Z.

Definition iterate (st : world) : result world :=
  let '(self, out) := st in
  do self <- update_grid mem self;
  let out := if clear self then out ++ [Cls] else out in
  do frame <- __str__ self;
  let out := out ++ [Print frame] in
  do ev <- pace self;
  Ok (self, out ++ [ev]).

(** [for i in range(n): iterate(); if all_dead_or_alive(): break] *)
Fixpoint run_for (n : nat) (st : world) : result world :=
  match n with
  | O => Ok st
  | S n' =>
      do st' <- iterate st;
      if all_dead_or_alive (fst st') then Ok st' else run_for n' st'
  end.

(** [while True: iterate(); if all_dead_or_alive(): break], cut after
    [fuel] turns; [None] when the loop is still running then. *)
Fixpoint run_while (fuel : nat) (st : world) : option (result world) :=
  match fuel with
  | O => None
  | S fuel' =>
      match iterate st with
      | Raise e => Some (Raise e)
      | Ok st' =>
          if all_dead_or_alive (fst st') then Some (Ok st')
          else run_while fuel' st'
      end
  end.

(** The title screen is one event; the second of sleep follows it. *)
Definition run (fuel : nat) (niter : option Z) (self : Grid)
  : option (result world) :=
  let st := (self, [Title; Sleep]) in
  match niter with
  | None => run_while fuel st
  | Some n => Some (run_for (Z.to_nat n) st)
  end.

End Run.

(** * Notions used in the statements *)

(** Cell [(i, j)] of an array, when there is one. *)
Definition cell (a : np.ndarray) (i j : nat) : option Z :=
  match a !! i with
  | Some row => row !! j
  | None => None
  end.

(** The array has the recorded dimensions and the neighbourhood type is
    one of the two that [set_neighbourhood_type] lets through. *)
Record Grid_inv (self : Grid) : Prop := {
  inv_shape :
    np.rectangular (Z.to_nat (height self)) (Z.to_nat (width self)) (grid self);
  inv_type :
    neighbourhood_type self = "moore" \/ neighbourhood_type self = "vonneumann"
}.

(** The cell at [(i, j)] on the torus. *)
Definition torus (self : Grid) (i j : Z) : Z :=
  default 0 (cell (grid self)
               (Z.to_nat (i mod height self)) (Z.to_nat (j mod width self))).

(** What [_update_cell] returns at [(i, j)] (0 where it raises). *)
Definition next_cell (self : Grid) (i j : Z) : Z :=
  match _update_cell self i j with
  | Ok v => v
  | Raise _ => 0
  end.

(** The array of the next states of all cells of the current grid. *)
Definition next_grid (self : Grid) : np.ndarray :=
  (fun r => (fun c => next_cell self (Z.of_nat r) (Z.of_nat c))
              <$> seq 0 (Z.to_nat (width self)))
    <$> seq 0 (Z.to_nat (height self)).

Definition in_grid (self : Grid) (ij : Z * Z) : Prop :=
  0 <= fst ij < height self /\ 0 <= snd ij < width self.

Definition conway (w h : Z) (a : np.ndarray) : Grid :=
  mkGrid true 60 [3] [2; 3] "moore" w h a.

Definition blinker : Grid :=
  conway 5 5 [[0; 0; 0; 0; 0];
              [0; 0; 0; 0; 0];
              [0; 1; 1; 1; 0];
              [0; 0; 0; 0; 0];
              [0; 0; 0; 0; 0]].

(** A seed file with a digit other than 0 and 1 in the middle. *)
Definition stained : Grid :=
  conway 3 3 [[0; 1; 0];
              [0; 5; 0];
              [0; 0; 0]].

(** The offsets of the neighbours of a cell, centre excluded. *)
Definition moore_offsets : list (Z * Z) :=
  [(-1, -1); (-1, 0); (-1, 1); (0, -1); (0, 1); (1, -1); (1, 0); (1, 1)].

Definition vonneumann_offsets : list (Z * Z) :=
  [(0, -1); (0, 1); (-1, 0); (1, 0)].

(** The states of the neighbours of [(i, j)] on the torus. *)
Definition neighbours (self : Grid) (i j : Z) : list Z :=
  (fun d => torus self (i + fst d) (j + snd d))
    <$> (if String.eqb (neighbourhood_type self) "vonneumann"
         then vonneumann_offsets else moore_offsets).

Definition blank5 : Grid := conway 5 5 (np.zeros 5 5).

Definition in_array (h w : nat) (ij : Z * Z) : Prop :=
  0 <= fst ij < Z.of_nat h /\ 0 <= snd ij < Z.of_nat w.

Definition glider : np.ndarray :=
  [[0; 1; 0];
   [0; 0; 1];
   [1; 1; 1]].

Definition blank9 : Grid := conway 9 9 (np.zeros 9 9).

Definition valid_index (n : nat) (k : Z) : Prop := - Z.of_nat n <= k < Z.of_nat n.

Definition valid_target (H W : nat) (hdiff wdiff : Z) (ij : Z * Z) : Prop :=
  valid_index H (fst ij + hdiff) /\ valid_index W (snd ij + wdiff).

Definition blank3 : Grid := conway 3 3 (np.zeros 3 3).

Definition tall : np.ndarray :=
  [[1; 1; 1];
   [0; 0; 0];
   [1; 0; 1];
   [0; 1; 0]].

Definition taller : np.ndarray :=
  [[1; 1; 1];
   [0; 0; 0];
   [1; 0; 1];
   [0; 1; 0];
   [1; 1; 1]].

Definition env0 : Env := mkEnv (80, 24) (fun _ => Raise OSError) (fun _ _ => []).

Fixpoint insert_asc (x : Z) (l : list Z) : list Z :=
  match l with
  | [] => [x]
  | y :: l' => if x <=? y then x :: l else y :: insert_asc x l'
  end.

Definition sort_asc (l : list Z) : list Z := fold_right insert_asc [] l.

(** The notation as the specification words it: both groups of digits
    in ascending order. *)
Definition to_notation (self : Grid) : string :=
  String.append "B"
    (String.append (join_str (sort_asc (born self)))
       (String.append "/S" (join_str (sort_asc (survive self))))).

Definition unsorted_rules : Grid := mkGrid true 60 [3] [3; 2] "moore" 3 3 (np.zeros 3 3).

(** The grid one generation later. *)
Definition step (self : Grid) : Grid := with_grid self (next_grid self).

(** The grid [k] generations later. *)
Fixpoint generation (self : Grid) (k : nat) : Grid :=
  match k with
  | O => self
  | S k' => generation (step self) k'
  end.

(** The frame [__str__] renders (empty where it raises). *)
Definition render (self : Grid) : string :=
  match __str__ self with
  | Ok s => s
  | Raise _ => EmptyString
  end.

(** What one turn of the loop sends to the terminal for the grid it has
    just computed. *)
Definition frame_events (g : Grid) : list event :=
  (if clear g then [Cls] else []) ++ [Print (render g); Sleep].

(** The output of the first [k] turns. *)
Fixpoint trace (self : Grid) (k : nat) : list event :=
  match k with
  | O => []
  | S k' => frame_events (step self) ++ trace (step self) k'
  end.

Definition is_frame (e : event) : bool :=
  match e with Print _ => true | _ => false end.

Definition count_frames (out : list event) : nat :=
  length (List.filter is_frame out).

(** The first [k] at which the loop may stop: no quiescent grid after
    turns 1 .. k-1. *)
Definition running_until (self : Grid) (k : nat) : Prop :=
  forall m, (1 <= m < k)%nat -> all_dead_or_alive (generation self m) = false.

(** The largest count a neighbourhood can give. *)
Definition full_count (self : Grid) : Z :=
  if String.eqb (neighbourhood_type self) "vonneumann" then 4 else 8.

(** The rules without the entries no neighbourhood count can equal. *)
Definition reachable (self : Grid) (n : Z) : bool :=
  (0 <=? n) && (n <=? full_count self).

Definition prune (self : Grid) : Grid :=
  with_survive (with_born self (List.filter (reachable self) (born self)))
               (List.filter (reachable self) (survive self)).

(** Same settings and dimensions. *)
Definition same_settings (self self' : Grid) : Prop :=
  born self' = born self /\ survive self' = survive self /\
  neighbourhood_type self' = neighbourhood_type self /\
  height self' = height self /\ width self' = width self.

Definition binary (a : np.ndarray) : Prop :=
  Forall (Forall (fun x => x = 0 \/ x = 1)) a.

(** The blinker one column to the right and one row up. *)
Definition blinker_moved : Grid :=
  conway 5 5 [[0; 0; 0; 0; 0];
              [0; 0; 1; 1; 1];
              [0; 0; 0; 0; 0];
              [0; 0; 0; 0; 0];
              [0; 0; 0; 0; 0]].

(** [self'] is [self] moved by [(a, b)], checked cell by cell. *)
Definition moved_by (self self' : Grid) (a b : Z) : bool :=
  forallb (fun r => forallb (fun c => torus self' r c =? torus self (r + a) (c + b))
                            (range (width self)))
          (range (height self)).

(** A grid of 3 x 3 live cells under Conway's rules. *)
Definition crowded : Grid :=
  conway 3 3 [[1; 1; 1];
              [1; 1; 1];
              [1; 1; 1]].

(** Conway's rules with entries no count can reach. *)
Definition padded_rules : Grid :=
  mkGrid true 60 [3; 9] [-1; 2; 3; 12] "moore" 5 5 (grid blinker).

(** A terminal of 80 x 24 whose seed files hold a glider, and whose
    random draw happens to be the empty grid of the requested shape. *)
Definition env1 : Env :=
  mkEnv (80, 24) (fun _ => Ok glider) (fun h w => np.zeros h w).

(** A terminal too narrow for any grid. *)
Definition env_narrow : Env :=
  mkEnv (6, 24) (fun _ => Raise OSError) (fun _ _ => []).

(** Which cells of an array are non-zero. *)
Definition liveness (a : np.ndarray) : list (list bool) :=
  (fun r : list Z => np.nonzero <$> r) <$> a.

(** One grid row of a frame, between its walls. *)
Definition row_line (row : list Z) : string :=
  String.append "|" (String.append (render_row row) (String.append "|" newline)).

(** The grid rows of a frame, top to bottom. *)
Definition frame_lines (rows : list (list Z)) : string :=
  fold_right (fun row acc => String.append (row_line row) acc) EmptyString rows.

(** The number of line breaks in a string. *)
Fixpoint count_newlines (s : string) : nat :=
  match s with
  | EmptyString => 0%nat
  | String c s' =>
      ((if Ascii.eqb c (ascii_of_nat 10) then 1 else 0) + count_newlines s')%nat
  end.

(** A grid that differs from the blinker in the values of its live
    cells only. *)
Definition blinker_stained : Grid :=
  conway 5 5 [[0; 0; 0; 0; 0];
              [0; 0; 0; 0; 0];
              [0; 7; 1; -2; 0];
              [0; 0; 0; 0; 0];
              [0; 0; 0; 0; 0]].

(** * Properties *)

(** ** The error monad and the loops *)

Lemma bind_ok {A B : Type} (m : result A) (k : A -> result B) (b : B) :
  bind m k = Ok b -> exists a, m = Ok a /\ k a = Ok b.
Proof. destruct m as [a|e]; simpl; [eauto | discriminate]. Qed.

Lemma for_each_app {A S : Type} (l1 l2 : list A) (body : A -> S -> result S) (s : S) :
  for_each (l1 ++ l2) body s = do s' <- for_each l1 body s; for_each l2 body s'.
Proof.
  revert s. induction l1 as [|x l1 IH]; intros s; simpl; [reflexivity|].
  destruct (body x s) as [s1|e]; simpl; [apply IH | reflexivity].
Qed.

Lemma for_each_fmap {A B S : Type} (f : A -> B) (l : list A)
  (body : B -> S -> result S) (s : S) :
  for_each (f <$> l) body s = for_each l (fun x => body (f x)) s.
Proof.
  revert s. induction l as [|x l IH]; intros s; simpl; [reflexivity|].
  destruct (body (f x) s); simpl; [apply IH | reflexivity].
Qed.

(** Nested loops are one loop over the concatenated coordinates. *)
Lemma for_each_nested {A B S : Type} (l1 : list A) (l2 : list B)
  (body : A * B -> S -> result S) (s : S) :
  for_each l1 (fun i s => for_each l2 (fun j s => body (i, j) s) s) s
  = for_each (concat ((fun i => (fun j => (i, j)) <$> l2) <$> l1)) body s.
Proof.
  revert s. induction l1 as [|i l1 IH]; intros s; simpl; [reflexivity|].
  rewrite for_each_app, for_each_fmap.
  destruct (for_each l2 _ s); simpl; [apply IH | reflexivity].
Qed.

Lemma elem_of_range (n k : Z) : k ∈ range n <-> 0 <= k < n.
Proof.
  unfold range. rewrite list_elem_of_fmap. split.
  - intros (m & -> & Hm). apply elem_of_seq in Hm. lia.
  - intros Hk. exists (Z.to_nat k). split; [lia|]. apply elem_of_seq. lia.
Qed.

Lemma elem_of_concat {A : Type} (x : A) (ls : list (list A)) :
  x ∈ concat ls <-> exists l, x ∈ l /\ l ∈ ls.
Proof.
  rewrite list_elem_of_In, in_concat. split.
  - intros (l & Hl & Hx). exists l. by rewrite !list_elem_of_In.
  - intros (l & Hx & Hl). exists l. by rewrite <- !list_elem_of_In.
Qed.

Lemma elem_of_row_major (h w : Z) (ij : Z * Z) :
  ij ∈ row_major h w <-> 0 <= fst ij < h /\ 0 <= snd ij < w.
Proof.
  unfold row_major. rewrite elem_of_concat. split.
  - intros (l & Hin & Hl). apply list_elem_of_fmap in Hl as (i & -> & Hi).
    apply list_elem_of_fmap in Hin as (j & -> & Hj).
    apply elem_of_range in Hi, Hj. simpl. lia.
  - intros [Hi Hj]. destruct ij as [i j]. simpl in *.
    exists ((fun j => (i, j)) <$> range w). split.
    + apply list_elem_of_fmap. exists j. split; [reflexivity|]. by apply elem_of_range.
    + apply list_elem_of_fmap. exists i. split; [reflexivity|]. by apply elem_of_range.
Qed.

(** ** Arrays *)

Lemma shape_rectangular (h w : nat) (a : np.ndarray) :
  np.rectangular h w a -> (0 < h)%nat -> np.shape a = (h, w).
Proof.
  intros [Hh Hw] Hpos. unfold np.shape. destruct a as [|r a]; simpl in *.
  - lia.
  - apply Forall_cons in Hw as [-> _]. by rewrite Hh.
Qed.

Lemma rectangular_row (h w : nat) (a : np.ndarray) (i : nat) (row : list Z) :
  np.rectangular h w a -> a !! i = Some row -> length row = w.
Proof.
  intros [_ Hw] Hi. rewrite Forall_forall in Hw. apply Hw.
  eapply list_elem_of_lookup_2. exact Hi.
Qed.

Lemma cell_is_Some (h w : nat) (a : np.ndarray) (i j : nat) :
  np.rectangular h w a -> (i < h)%nat -> (j < w)%nat -> is_Some (cell a i j).
Proof.
  intros Hr Hi Hj. unfold cell.
  destruct (lookup_lt_is_Some_2 a i) as [row Hrow]; [destruct Hr; lia|].
  rewrite Hrow. apply lookup_lt_is_Some_2.
  rewrite (rectangular_row h w a i row); auto.
Qed.

(** Two arrays of one shape with the same cells are the same array. *)
Lemma rectangular_ext (h w : nat) (a b : np.ndarray) :
  np.rectangular h w a -> np.rectangular h w b ->
  (forall i j, (i < h)%nat -> (j < w)%nat -> cell a i j = cell b i j) ->
  a = b.
Proof.
  intros Ha Hb Hcell. apply list_eq. intros i.
  destruct (decide (i < h)%nat) as [Hi|Hi].
  - destruct (lookup_lt_is_Some_2 a i) as [ra Hra]; [destruct Ha; lia|].
    destruct (lookup_lt_is_Some_2 b i) as [rb Hrb]; [destruct Hb; lia|].
    rewrite Hra, Hrb. f_equal. apply list_eq. intros j.
    destruct (decide (j < w)%nat) as [Hj|Hj].
    + specialize (Hcell i j Hi Hj). unfold cell in Hcell.
      by rewrite Hra, Hrb in Hcell.
    + rewrite !lookup_ge_None_2; [done| |].
      * rewrite (rectangular_row h w b i rb); auto. lia.
      * rewrite (rectangular_row h w a i ra); auto. lia.
  - rewrite !lookup_ge_None_2; [done| |]; [destruct Hb | destruct Ha]; lia.
Qed.

Lemma index_in_range (n : nat) (k : Z) :
  0 <= k < Z.of_nat n -> np.index n k = Ok (Z.to_nat k).
Proof. intros Hk. unfold np.index. by rewrite bool_decide_eq_true_2. Qed.

Lemma getitem_in_range (h w : nat) (a : np.ndarray) (r c : Z) :
  np.rectangular h w a -> 0 <= r < Z.of_nat h -> 0 <= c < Z.of_nat w ->
  exists x, cell a (Z.to_nat r) (Z.to_nat c) = Some x /\ np.getitem a r c = Ok x.
Proof.
  intros Hr Hi Hj.
  destruct (cell_is_Some h w a (Z.to_nat r) (Z.to_nat c) Hr) as [x Hx]; [lia..|].
  exists x. split; [exact Hx|].
  unfold np.getitem. rewrite (shape_rectangular h w a Hr) by lia.
  rewrite !index_in_range by lia. simpl.
  unfold cell in Hx. destruct (a !! Z.to_nat r); [|discriminate]. by rewrite Hx.
Qed.

Lemma setitem_in_range (h w : nat) (a : np.ndarray) (r c v : Z) :
  np.rectangular h w a -> 0 <= r < Z.of_nat h -> 0 <= c < Z.of_nat w ->
  exists a',
    np.setitem a r c v = Ok a' /\ np.rectangular h w a' /\
    forall i j, (i < h)%nat -> (j < w)%nat ->
      cell a' i j =
        if decide (i = Z.to_nat r /\ j = Z.to_nat c) then Some v else cell a i j.
Proof.
  intros Hr Hi Hj.
  exists (alter (fun row => <[Z.to_nat c := v]> row) (Z.to_nat r) a).
  split; [|split].
  - unfold np.setitem. rewrite (shape_rectangular h w a Hr) by lia.
    by rewrite !index_in_range by lia.
  - destruct Hr as [Hh Hw]. split; [by rewrite length_alter|].
    apply Forall_alter; [exact Hw|]. intros row Hrow. by rewrite length_insert.
  - intros i j Hi' Hj'. unfold cell. rewrite list_lookup_alter.
    destruct (lookup_lt_is_Some_2 a i) as [row Hrow]; [destruct Hr; lia|].
    pose proof (rectangular_row h w a i row Hr Hrow) as Hlen.
    destruct (decide (Z.to_nat r = i)) as [<-|Hne]; rewrite Hrow; simpl.
    + destruct (decide (j = Z.to_nat c)) as [->|Hnc].
      * rewrite decide_True by done. apply list_lookup_insert_eq. lia.
      * rewrite decide_False by tauto. by apply list_lookup_insert_ne.
    + rewrite decide_False by (intros [? ?]; congruence). done.
Qed.

(** ** The invariant of a constructed grid *)

Lemma getitem_torus (self : Grid) (i j : Z) :
  Grid_inv self -> 0 < height self -> 0 < width self ->
  np.getitem (grid self) (i mod height self) (j mod width self)
  = Ok (torus self i j).
Proof.
  intros [Hs _] Hh Hw.
  pose proof (Z.mod_pos_bound i (height self) Hh).
  pose proof (Z.mod_pos_bound j (width self) Hw).
  destruct (getitem_in_range _ _ _ (i mod height self) (j mod width self) Hs)
    as (x & Hx & ->); [lia..|].
  unfold torus. by rewrite Hx.
Qed.

Lemma _view_moore (self : Grid) (i j : Z) :
  Grid_inv self -> 0 < height self -> 0 < width self ->
  neighbourhood_type self = "moore" ->
  _view self i j =
    Ok (View2 [[torus self (i - 1) (j - 1); torus self (i - 1) j; torus self (i - 1) (j + 1)];
               [torus self i (j - 1);       torus self i j;       torus self i (j + 1)];
               [torus self (i + 1) (j - 1); torus self (i + 1) j; torus self (i + 1) (j + 1)]],
        torus self i j).
Proof.
  intros Hinv Hh Hw Hnt. unfold _view. rewrite Hnt. simpl String.eqb. cbv iota.
  unfold np.mod_. simpl fmap.
  replace (height self =? 0) with false by lia.
  replace (width self =? 0) with false by lia.
  simpl np.getitem_ix. by rewrite !getitem_torus.
Qed.

Lemma _view_vonneumann (self : Grid) (i j : Z) :
  Grid_inv self -> 0 < height self -> 0 < width self ->
  neighbourhood_type self = "vonneumann" ->
  _view self i j =
    Ok (View1 [torus self i (j - 1); torus self i j; torus self i (j + 1);
               torus self (i - 1) j; torus self (i + 1) j],
        torus self i j).
Proof.
  intros Hinv Hh Hw Hnt. unfold _view. rewrite Hnt. simpl String.eqb. cbv iota.
  unfold np.mod_. simpl fmap.
  replace (height self =? 0) with false by lia.
  replace (width self =? 0) with false by lia.
  simpl np.getitem_pairs. by rewrite !getitem_torus.
Qed.

Lemma _view_ok (self : Grid) (i j : Z) :
  Grid_inv self -> 0 < height self -> 0 < width self ->
  exists v, _view self i j = Ok (v, torus self i j).
Proof.
  intros Hinv Hh Hw. destruct (inv_type self Hinv) as [Hnt|Hnt].
  - eexists. by apply _view_moore.
  - eexists. by apply _view_vonneumann.
Qed.

(** The if-chain of [_update_cell] only has the outcomes 0 and 1. *)
Lemma _update_cell_binary (self : Grid) (i j v : Z) :
  _update_cell self i j = Ok v -> v = 0 \/ v = 1.
Proof.
  unfold _update_cell. intros H. apply bind_ok in H as (vc & _ & H).
  repeat match type of H with
         | (if ?b then _ else _) = _ => destruct b
         end; inversion H; auto.
Qed.

Lemma _update_cell_ok (self : Grid) (i j : Z) :
  Grid_inv self -> 0 < height self -> 0 < width self ->
  exists v, _update_cell self i j = Ok v.
Proof.
  intros Hinv Hh Hw. destruct (_view_ok self i j Hinv Hh Hw) as [vw Hv].
  unfold _update_cell. rewrite Hv. simpl.
  repeat match goal with
         | |- context [if ?b then _ else _] => destruct b
         end; eauto.
Qed.

(** ** One generation *)

Lemma tabulate_rectangular (f : nat -> nat -> Z) (h w : nat) :
  np.rectangular h w ((fun r => (fun c => f r c) <$> seq 0 w) <$> seq 0 h).
Proof.
  split.
  - by rewrite length_fmap, length_seq.
  - apply Forall_fmap, Forall_forall. intros r _. simpl.
    by rewrite length_fmap, length_seq.
Qed.

Lemma tabulate_cell (f : nat -> nat -> Z) (h w i j : nat) :
  (i < h)%nat -> (j < w)%nat ->
  cell ((fun r => (fun c => f r c) <$> seq 0 w) <$> seq 0 h) i j = Some (f i j).
Proof.
  intros Hi Hj. unfold cell.
  rewrite list_lookup_fmap, lookup_seq_lt by done. simpl.
  by rewrite list_lookup_fmap, lookup_seq_lt by done.
Qed.

Lemma empty_like_rectangular (mem : nat -> nat -> Z) (h w : nat) (a : np.ndarray) :
  np.rectangular h w a -> np.rectangular h w (np.empty_like mem a).
Proof.
  intros Ha. unfold np.empty_like. destruct (decide (0 < h)%nat) as [Hh|Hh].
  - rewrite (shape_rectangular h w a Ha Hh). apply tabulate_rectangular.
  - destruct Ha as [Hlen _]. destruct a; simpl in *; [|lia].
    assert (h = 0%nat) as -> by lia. split; [done | constructor].
Qed.

(** Running the loop body over any list of coordinates of the grid
    overwrites exactly the listed cells, each with its next state. *)
Lemma update_cells_spec (self : Grid) (order : list (Z * Z)) :
  Grid_inv self -> Forall (in_grid self) order ->
  forall tg,
    np.rectangular (Z.to_nat (height self)) (Z.to_nat (width self)) tg ->
    exists tg',
      update_cells self order tg = Ok tg' /\
      np.rectangular (Z.to_nat (height self)) (Z.to_nat (width self)) tg' /\
      forall i j, (i < Z.to_nat (height self))%nat -> (j < Z.to_nat (width self))%nat ->
        cell tg' i j =
          if decide ((Z.of_nat i, Z.of_nat j) ∈ order)
          then Some (next_cell self (Z.of_nat i) (Z.of_nat j))
          else cell tg i j.
Proof.
  intros Hinv Hord. induction Hord as [|[r c] l [Hr Hc] Hl IH]; intros tg Htg.
  - exists tg. split; [done|]. split; [done|]. intros i j _ _.
    rewrite decide_False; [done | apply not_elem_of_nil].
  - simpl in Hr, Hc.
    destruct (_update_cell_ok self r c Hinv) as [v Hv]; [lia..|].
    destruct (setitem_in_range _ _ tg r c v Htg) as (tg1 & Hset & Hrect1 & Hcell1);
      [lia..|].
    destruct (IH tg1 Hrect1) as (tg' & Hrun & Hrect' & Hcell').
    exists tg'. split; [|split; [done|]].
    + unfold update_cells in *. simpl. unfold update_one at 1. simpl.
      by rewrite Hv; simpl; rewrite Hset.
    + intros i j Hi Hj. rewrite (Hcell' i j Hi Hj), (Hcell1 i j Hi Hj).
      destruct (decide ((Z.of_nat i, Z.of_nat j) ∈ l)) as [Hin|Hnin].
      * rewrite decide_True; [done | by apply list_elem_of_further].
      * destruct (decide (i = Z.to_nat r /\ j = Z.to_nat c)) as [[-> ->]|Hne].
        -- rewrite decide_True.
           ++ rewrite !Z2Nat.id by lia. unfold next_cell. by rewrite Hv.
           ++ rewrite !Z2Nat.id by lia. apply list_elem_of_here.
        -- rewrite decide_False; [done|].
           intros Hin. apply elem_of_cons in Hin as [Heq|Hin]; [|done].
           inversion Heq; subst. apply Hne. lia.
Qed.

(** Any visiting order that reaches every cell of the grid, and no
    coordinate outside it, leaves the same array: the next generation. *)
Lemma update_cells_all (self : Grid) (order : list (Z * Z)) (tg : np.ndarray) :
  Grid_inv self ->
  (forall ij, ij ∈ order <-> in_grid self ij) ->
  np.rectangular (Z.to_nat (height self)) (Z.to_nat (width self)) tg ->
  update_cells self order tg = Ok (next_grid self).
Proof.
  intros Hinv Hcover Htg.
  destruct (update_cells_spec self order Hinv) with (tg := tg)
    as (tg' & -> & Hrect & Hcell); [|done|].
  { apply Forall_forall. intros ij Hij. by apply Hcover. }
  f_equal. eapply rectangular_ext; [exact Hrect | apply tabulate_rectangular |].
  intros i j Hi Hj. rewrite (Hcell i j Hi Hj). unfold next_grid.
  rewrite (tabulate_cell (fun r c => next_cell self (Z.of_nat r) (Z.of_nat c))) by done.
  rewrite decide_True; [done|]. apply Hcover. unfold in_grid. simpl. lia.
Qed.

Lemma update_grid_next (mem : nat -> nat -> Z) (self : Grid) :
  Grid_inv self -> update_grid mem self = Ok (with_grid self (next_grid self)).
Proof.
  intros Hinv. unfold update_grid.
  rewrite (for_each_nested (range (height self)) (range (width self))
             (update_one self)).
  fold (row_major (height self) (width self)).
  fold (update_cells self (row_major (height self) (width self))
          (np.empty_like mem (grid self))).
  rewrite update_cells_all; [done | done | |].
  - intros ij. apply elem_of_row_major.
  - apply empty_like_rectangular, Hinv.
Qed.

Lemma next_grid_inv (self : Grid) :
  Grid_inv self -> Grid_inv (with_grid self (next_grid self)).
Proof.
  intros [Hs Ht]. split; simpl; [apply tabulate_rectangular | exact Ht].
Qed.

(** ** Sample grids *)

Lemma rectangular_dec (h w : nat) (a : np.ndarray) :
  (Nat.eqb (length a) h && forallb (fun r => Nat.eqb (length r) w) a)%bool = true ->
  np.rectangular h w a.
Proof.
  intros H. apply andb_prop in H as [Hh Hw]. split.
  - by apply Nat.eqb_eq.
  - apply Forall_forall. intros r Hr. rewrite forallb_forall in Hw.
    apply Nat.eqb_eq, Hw. by apply list_elem_of_In.
Qed.

Lemma blinker_inv : Grid_inv blinker.
Proof. split; [by apply rectangular_dec | by left]. Qed.

Lemma stained_inv : Grid_inv stained.
Proof. split; [by apply rectangular_dec | by left]. Qed.

(** ** C1: one generation is the pointwise image of the old grid *)

(** C1. [update_grid] succeeds on every constructed grid; the array it
    installs has the old shape and holds at every coordinate [(i, j)] what
    [_update_cell] returns there on the old grid; and running the loop
    body over any permutation of the coordinates, from any contents of
    the fresh buffer, installs the same array. *)
Theorem update_grid_pointwise (mem : nat -> nat -> Z) (self : Grid) :
  Grid_inv self ->
  exists g',
    update_grid mem self = Ok (with_grid self g') /\
    np.rectangular (Z.to_nat (height self)) (Z.to_nat (width self)) g' /\
    (forall i j, 0 <= i < height self -> 0 <= j < width self ->
       exists v, _update_cell self i j = Ok v /\
                 cell g' (Z.to_nat i) (Z.to_nat j) = Some v) /\
    (forall order mem',
       Permutation order (row_major (height self) (width self)) ->
       update_cells self order (np.empty_like mem' (grid self)) = Ok g').
Proof.
  intros Hinv. exists (next_grid self).
  split; [by apply update_grid_next|].
  split; [apply tabulate_rectangular|].
  split.
  - intros i j Hi Hj.
    destruct (_update_cell_ok self i j Hinv) as [v Hv]; [lia..|].
    exists v. split; [done|]. unfold next_grid.
    rewrite (tabulate_cell (fun r c => next_cell self (Z.of_nat r) (Z.of_nat c)))
      by lia.
    rewrite !Z2Nat.id by lia. unfold next_cell. by rewrite Hv.
  - intros order mem' Hperm. apply update_cells_all; [done| |].
    + intros ij. rewrite Hperm. apply elem_of_row_major.
    + apply empty_like_rectangular, Hinv.
Qed.

Lemma update_grid_pointwise_witness :
  Grid_inv blinker /\
  exists g',
    update_grid (fun _ _ => 7) blinker = Ok (with_grid blinker g') /\
    np.rectangular 5 5 g' /\
    (forall i j, 0 <= i < 5 -> 0 <= j < 5 ->
       exists v, _update_cell blinker i j = Ok v /\
                 cell g' (Z.to_nat i) (Z.to_nat j) = Some v) /\
    (forall order mem',
       Permutation order (row_major 5 5) ->
       update_cells blinker order (np.empty_like mem' (grid blinker)) = Ok g').
Proof.
  split; [exact blinker_inv|].
  exact (update_grid_pointwise (fun _ _ => 7) blinker blinker_inv).
Defined.

(** ** C10: after a generation every cell is 0 or 1 *)

Lemma next_cell_binary (self : Grid) (i j : Z) :
  next_cell self i j = 0 \/ next_cell self i j = 1.
Proof.
  unfold next_cell. destruct (_update_cell self i j) as [v|e] eqn:Hv; [|by left].
  by apply _update_cell_binary in Hv.
Qed.

(** C10. Whatever values the cells hold, [update_grid] succeeds and
    every cell of the grid it leaves is 0 or 1 (and the grid keeps its
    shape and settings). *)
Theorem update_grid_binary (mem : nat -> nat -> Z) (self : Grid) :
  Grid_inv self ->
  exists self',
    update_grid mem self = Ok self' /\
    Grid_inv self' /\
    height self' = height self /\ width self' = width self /\
    Forall (Forall (fun x => x = 0 \/ x = 1)) (grid self').
Proof.
  intros Hinv. exists (with_grid self (next_grid self)).
  split; [by apply update_grid_next|].
  split; [by apply next_grid_inv|].
  split; [done|]. split; [done|]. simpl. unfold next_grid.
  apply Forall_fmap, Forall_forall. intros r _. simpl.
  apply Forall_fmap, Forall_forall. intros c _. simpl.
  apply next_cell_binary.
Qed.

Lemma update_grid_binary_witness :
  Grid_inv stained /\
  exists self',
    update_grid (fun _ _ => 7) stained = Ok self' /\
    Grid_inv self' /\
    height self' = 3 /\ width self' = 3 /\
    Forall (Forall (fun x => x = 0 \/ x = 1)) (grid self').
Proof.
  split; [exact stained_inv|].
  exact (update_grid_binary (fun _ _ => 7) stained stained_inv).
Defined.

(** ** C2: the birth and survival rule *)

Lemma py_in_In (n : Z) (l : list Z) : py_in n l = true <-> In n l.
Proof.
  unfold py_in. rewrite existsb_exists. split.
  - intros (x & Hx & Heq). apply Z.eqb_eq in Heq. by subst.
  - intros Hin. exists n. split; [done | apply Z.eqb_refl].
Qed.

(** C2. With [s] the centre cell of the view and [n] the count
    [_update_cell] derives from it: a dead cell with [n] in [born] is
    alive next, a live cell with [n] in [survive] is alive next, and in
    every other case the cell is dead next. *)
Theorem _update_cell_rule (self : Grid) (i j : Z) (v : view) (s : Z) :
  _view self i j = Ok (v, s) ->
  let n := count_nonzero v - s in
  (s = 0 -> In n (born self) -> _update_cell self i j = Ok 1) /\
  (s = 1 -> In n (survive self) -> _update_cell self i j = Ok 1) /\
  (~ (s = 0 /\ In n (born self)) -> ~ (s = 1 /\ In n (survive self)) ->
   _update_cell self i j = Ok 0).
Proof.
  intros Hv n. unfold _update_cell. rewrite Hv. simpl. fold n.
  split; [|split].
  - intros -> Hb. apply py_in_In in Hb. by rewrite Hb.
  - intros -> Hs. apply py_in_In in Hs. rewrite Hs. simpl.
    by destruct (py_in n (born self)).
  - intros Hnb Hns.
    destruct (s =? 0) eqn:E0; simpl.
    + apply Z.eqb_eq in E0.
      destruct (py_in n (born self)) eqn:Eb.
      * exfalso. apply Hnb. split; [done | by apply py_in_In].
      * subst s. done.
    + destruct (s =? 1) eqn:E1; simpl; [|done].
      apply Z.eqb_eq in E1.
      destruct (py_in n (survive self)) eqn:Es; [|done].
      exfalso. apply Hns. split; [done | by apply py_in_In].
Qed.

Lemma _update_cell_rule_witness :
  _view blinker 1 2 = Ok (View2 [[0; 0; 0]; [0; 0; 0]; [1; 1; 1]], 0) /\
  ((0 = 0 -> In 3 (born blinker) -> _update_cell blinker 1 2 = Ok 1) /\
   (0 = 1 -> In 3 (survive blinker) -> _update_cell blinker 1 2 = Ok 1) /\
   (~ (0 = 0 /\ In 3 (born blinker)) -> ~ (0 = 1 /\ In 3 (survive blinker)) ->
    _update_cell blinker 1 2 = Ok 0)).
Proof.
  split; [reflexivity|].
  exact (_update_cell_rule blinker 1 2
           (View2 [[0; 0; 0]; [0; 0; 0]; [1; 1; 1]]) 0 eq_refl).
Defined.

(** ** C3: sampling stays on the grid and leaves the centre out *)

Lemma count_nonzero_1d_cons (x : Z) (l : list Z) :
  np.count_nonzero_1d (x :: l)
  = (if np.nonzero x then 1 else 0) + np.count_nonzero_1d l.
Proof.
  unfold np.count_nonzero_1d. simpl. destruct (np.nonzero x); simpl length; lia.
Qed.

Lemma mod_in_range (l : list Z) (d : Z) :
  0 < d -> Forall (fun k => 0 <= k < d) (np.mod_ l d).
Proof.
  intros Hd. unfold np.mod_. apply Forall_fmap, Forall_forall. intros a _. simpl.
  replace (d =? 0) with false by lia. by apply Z.mod_pos_bound.
Qed.

(** [_view] is the indexing of the grid by the arrays [_view_indices]
    lists. *)
Lemma _view_reads (self : Grid) (i j : Z) :
  _view self i j =
    match _view_indices self i j with
    | None => Raise ValueError
    | Some (cols, rows) =>
        if String.eqb (neighbourhood_type self) "vonneumann"
        then do v <- np.getitem_pairs (grid self) cols rows;
             match v !! 1%nat with
             | Some c => Ok (View1 v, c)
             | None => Raise IndexError
             end
        else do v <- np.getitem_ix (grid self) cols rows;
             match v !! 1%nat with
             | Some row => match row !! 1%nat with
                           | Some c => Ok (View2 v, c)
                           | None => Raise IndexError
                           end
             | None => Raise IndexError
             end
    end.
Proof.
  unfold _view, _view_indices.
  destruct (String.eqb (neighbourhood_type self) "vonneumann"); [done|].
  by destruct (String.eqb (neighbourhood_type self) "moore").
Qed.

(** C3. On a grid with at least one row and one column, at any
    coordinate (in or off the grid) and for both neighbourhood types:
    every row index [_view] uses lies in [0, height) and every column
    index in [0, width); [_view] returns a view, with the cell at
    [(i, j)] as its centre; and when that cell is 0 or 1 the count
    [_update_cell] uses is the number of live cells among the
    neighbours alone. *)
Theorem _view_in_bounds (self : Grid) (i j : Z) :
  Grid_inv self -> 0 < height self -> 0 < width self ->
  (exists cols rows,
     _view_indices self i j = Some (cols, rows) /\
     Forall (fun r => 0 <= r < height self) cols /\
     Forall (fun c => 0 <= c < width self) rows) /\
  (exists v,
     _view self i j = Ok (v, torus self i j) /\
     (torus self i j = 0 \/ torus self i j = 1 ->
      count_nonzero v - torus self i j
      = np.count_nonzero_1d (neighbours self i j))).
Proof.
  intros Hinv Hh Hw. split.
  - unfold _view_indices. destruct (inv_type self Hinv) as [Hnt|Hnt]; rewrite Hnt;
      simpl String.eqb; cbv iota; do 2 eexists;
      (split; [reflexivity|]); split; by apply mod_in_range.
  - destruct (inv_type self Hinv) as [Hnt|Hnt].
    + eexists. split; [by apply _view_moore|]. intros Hc.
      unfold neighbours. rewrite Hnt. simpl String.eqb. cbv iota.
      unfold moore_offsets. simpl fmap. rewrite !Z.add_0_r.
      change (i + -1) with (i - 1). change (j + -1) with (j - 1).
      unfold count_nonzero, np.count_nonzero. simpl concat.
      rewrite !count_nonzero_1d_cons.
      destruct Hc as [-> | ->];
        [change (np.nonzero 0) with false | change (np.nonzero 1) with true];
        cbv iota; ring.
    + eexists. split; [by apply _view_vonneumann|]. intros Hc.
      unfold neighbours. rewrite Hnt. simpl String.eqb. cbv iota.
      unfold vonneumann_offsets. simpl fmap. rewrite !Z.add_0_r.
      change (i + -1) with (i - 1). change (j + -1) with (j - 1).
      unfold count_nonzero.
      rewrite !count_nonzero_1d_cons.
      destruct Hc as [-> | ->];
        [change (np.nonzero 0) with false | change (np.nonzero 1) with true];
        cbv iota; ring.
Qed.

Lemma _view_in_bounds_witness :
  Grid_inv blinker /\ 0 < height blinker /\ 0 < width blinker /\
  torus blinker 2 2 = 1 /\
  ((exists cols rows,
      _view_indices blinker 2 2 = Some (cols, rows) /\
      Forall (fun r => 0 <= r < height blinker) cols /\
      Forall (fun c => 0 <= c < width blinker) rows) /\
   (exists v,
      _view blinker 2 2 = Ok (v, torus blinker 2 2) /\
      (torus blinker 2 2 = 0 \/ torus blinker 2 2 = 1 ->
       count_nonzero v - torus blinker 2 2
       = np.count_nonzero_1d (neighbours blinker 2 2)))).
Proof.
  split; [exact blinker_inv|].
  split; [reflexivity|]. split; [reflexivity|]. split; [reflexivity|].
  apply (_view_in_bounds blinker 2 2 blinker_inv); reflexivity.
Defined.

(** Where a seed file left another digit in a cell, the count at that
    cell is off by the digit minus one: here one neighbour is alive and
    the count is -3. *)
Remark _update_cell_count_stained :
  _view stained 1 1 = Ok (View2 [[0; 1; 0]; [0; 5; 0]; [0; 0; 0]], 5) /\
  count_nonzero (View2 [[0; 1; 0]; [0; 5; 0]; [0; 0; 0]]) - 5 = -3 /\
  np.count_nonzero_1d (neighbours stained 1 1) = 1.
Proof. by vm_compute. Qed.

(** ** C4: rules that do not fit the neighbourhood *)

(** C4. [Grid(width=7, height=7)] is constructed, the compatibility
    test of [__init__] passing on the defaults it has just set;
    [set_rules] afterwards takes survive = [9] under the
    Moore neighbourhood without an error, and born = [5] followed by a
    switch to the von Neumann neighbourhood is taken as well, although
    the constructor's own test rejects both objects; the simulation then
    runs on them without raising. *)
Theorem set_rules_accepts_incompatible :
  __init__ env0 (Some 7) (Some 7) None false = Ok blank5 /\
  check_compatible blank5 = Ok blank5 /\
  (exists g, set_rules blank5 (RuleList [3]) (RuleList [9]) = Ok g /\
             survive g = [9] /\ neighbourhood_type g = "moore" /\
             check_compatible g = Raise ValueError /\
             is_ok (update_grid (fun _ _ => 0) g)) /\
  (exists g g', set_rules blank5 (RuleList [5]) (RuleList [2; 3]) = Ok g /\
                set_neighbourhood_type g (PyStr "vonNeumann") = Ok g' /\
                born g' = [5] /\ neighbourhood_type g' = "vonneumann" /\
                check_compatible g' = Raise ValueError /\
                is_ok (update_grid (fun _ _ => 0) g')).
Proof.
  split; [reflexivity|]. split; [reflexivity|]. split.
  - eexists. split; [reflexivity|]. by vm_compute.
  - do 2 eexists. split; [reflexivity|]. split; [reflexivity|]. by vm_compute.
Qed.

(** ** C5: centring a pattern that fits *)

(** Writing the listed pattern cells at their offset positions changes
    exactly the cells those positions name. *)
Lemma place_spec (array : np.ndarray) (h w H W : nat) (hdiff wdiff : Z)
  (order : list (Z * Z)) :
  np.rectangular h w array ->
  0 <= hdiff -> hdiff + Z.of_nat h <= Z.of_nat H ->
  0 <= wdiff -> wdiff + Z.of_nat w <= Z.of_nat W ->
  Forall (in_array h w) order ->
  forall g,
    np.rectangular H W g ->
    exists g',
      for_each order (place array hdiff wdiff) g = Ok g' /\
      np.rectangular H W g' /\
      forall r c, (r < H)%nat -> (c < W)%nat ->
        cell g' r c =
          if decide ((Z.of_nat r - hdiff, Z.of_nat c - wdiff) ∈ order)
          then cell array (Z.to_nat (Z.of_nat r - hdiff))
                          (Z.to_nat (Z.of_nat c - wdiff))
          else cell g r c.
Proof.
  intros Harr Hh0 Hh1 Hw0 Hw1 Hord.
  induction Hord as [|[i j] l [Hi Hj] Hl IH]; intros g Hg.
  - exists g. split; [done|]. split; [done|]. intros r c _ _.
    rewrite decide_False; [done | apply not_elem_of_nil].
  - simpl in Hi, Hj.
    destruct (getitem_in_range h w array i j Harr Hi Hj) as (x & Hx & Hget).
    destruct (setitem_in_range H W g (i + hdiff) (j + wdiff) x Hg)
      as (g1 & Hset & Hrect1 & Hcell1); [lia..|].
    destruct (IH g1 Hrect1) as (g' & Hrun & Hrect' & Hcell').
    exists g'. split; [|split; [done|]].
    + simpl. unfold place at 1. simpl. by rewrite Hget; simpl; rewrite Hset.
    + intros r c Hr Hc. rewrite (Hcell' r c Hr Hc), (Hcell1 r c Hr Hc).
      destruct (decide ((Z.of_nat r - hdiff, Z.of_nat c - wdiff) ∈ l)) as [Hin|Hnin].
      * rewrite decide_True; [done | by apply list_elem_of_further].
      * destruct (decide (r = Z.to_nat (i + hdiff) /\ c = Z.to_nat (j + wdiff)))
          as [[-> ->]|Hne].
        -- rewrite !Z2Nat.id by lia.
           replace (i + hdiff - hdiff) with i by lia.
           replace (j + wdiff - wdiff) with j by lia.
           rewrite decide_True; [done | apply list_elem_of_here].
        -- rewrite decide_False; [done|].
           intros Hin. apply elem_of_cons in Hin as [Heq|Hin]; [|done].
           inversion Heq; subst. apply Hne. lia.
Qed.

(** C5. A pattern of [h] rows and [w] columns that fits the grid is
    written with its top-left corner at row [(height - h) // 2] and
    column [(width - w) // 2]: [centre_grid] succeeds, the cells of that
    [h] x [w] block hold the pattern and every other cell is as before.
    For a 3 x 3 pattern the corner is (3, 3) on a 9 x 9 grid and (2, 2) on
    an 8 x 8 grid. *)
Theorem centre_grid_placement (self : Grid) (array : np.ndarray) (h w : nat) :
  Grid_inv self -> np.rectangular h w array ->
  Z.of_nat h <= height self -> Z.of_nat w <= width self ->
  let hdiff := (height self - Z.of_nat h) / 2 in
  let wdiff := (width self - Z.of_nat w) / 2 in
  (exists g',
     centre_grid self array = Ok (with_grid self g') /\
     np.rectangular (Z.to_nat (height self)) (Z.to_nat (width self)) g' /\
     forall r c, 0 <= r < height self -> 0 <= c < width self ->
       cell g' (Z.to_nat r) (Z.to_nat c) =
         if decide (hdiff <= r < hdiff + Z.of_nat h /\
                    wdiff <= c < wdiff + Z.of_nat w)
         then cell array (Z.to_nat (r - hdiff)) (Z.to_nat (c - wdiff))
         else cell (grid self) (Z.to_nat r) (Z.to_nat c)) /\
  (h = 3%nat -> w = 3%nat -> height self = 9 -> width self = 9 ->
   hdiff = 3 /\ wdiff = 3) /\
  (h = 3%nat -> w = 3%nat -> height self = 8 -> width self = 8 ->
   hdiff = 2 /\ wdiff = 2).
Proof.
  intros Hinv Harr Hh Hw hdiff wdiff.
  split; [|split; intros -> -> Hgh Hgw; subst hdiff wdiff; rewrite Hgh, Hgw; done].
  destruct (decide (h = 0%nat)) as [->|Hpos].
  - (* an empty pattern: nothing is written *)
    destruct Harr as [Hlen _]. destruct array; [|discriminate].
    exists (grid self). split; [|split; [apply Hinv|]].
    + unfold centre_grid. simpl. by destruct self.
    + intros r c Hr Hc. rewrite decide_False; [done | lia].
  - assert (Hshape : np.shape array = (h, w))
      by (apply shape_rectangular; [done | lia]).
    assert (0 <= hdiff /\ hdiff + Z.of_nat h <= height self) as [Hd0 Hd1].
    { subst hdiff. split; [apply Z.div_pos; lia|].
      pose proof (Z.mul_div_le (height self - Z.of_nat h) 2). lia. }
    assert (0 <= wdiff /\ wdiff + Z.of_nat w <= width self) as [Hw0 Hw1].
    { subst wdiff. split; [apply Z.div_pos; lia|].
      pose proof (Z.mul_div_le (width self - Z.of_nat w) 2). lia. }
    destruct (place_spec array h w (Z.to_nat (height self)) (Z.to_nat (width self))
                hdiff wdiff (row_major (Z.of_nat h) (Z.of_nat w)) Harr)
      with (g := grid self) as (g' & Hrun & Hrect & Hcell); [lia..| |apply Hinv|].
    { apply Forall_forall. intros ij Hij. by apply elem_of_row_major in Hij. }
    exists g'. split; [|split; [done|]].
    + unfold centre_grid. rewrite Hshape. fold hdiff wdiff.
      rewrite (for_each_nested (range (Z.of_nat h)) (range (Z.of_nat w))
                 (place array hdiff wdiff)).
      fold (row_major (Z.of_nat h) (Z.of_nat w)). by rewrite Hrun.
    + intros r c Hr Hc. rewrite Hcell by lia. rewrite !Z2Nat.id by lia.
      destruct (decide (hdiff <= r < hdiff + Z.of_nat h /\
                        wdiff <= c < wdiff + Z.of_nat w)) as [Hin|Hout].
      * rewrite decide_True; [done|]. apply elem_of_row_major. simpl. lia.
      * rewrite decide_False; [done|]. intros Hin.
        apply elem_of_row_major in Hin. simpl in Hin. lia.
Qed.

Lemma blank9_inv : Grid_inv blank9.
Proof. split; [by apply rectangular_dec | by left]. Qed.

Lemma centre_grid_placement_witness :
  Grid_inv blank9 /\ np.rectangular 3 3 glider /\
  3 <= height blank9 /\ 3 <= width blank9 /\
  ((exists g',
      centre_grid blank9 glider = Ok (with_grid blank9 g') /\
      np.rectangular 9 9 g' /\
      forall r c, 0 <= r < 9 -> 0 <= c < 9 ->
        cell g' (Z.to_nat r) (Z.to_nat c) =
          if decide (3 <= r < 3 + 3 /\ 3 <= c < 3 + 3)
          then cell glider (Z.to_nat (r - 3)) (Z.to_nat (c - 3))
          else cell (grid blank9) (Z.to_nat r) (Z.to_nat c)) /\
   (3%nat = 3%nat -> 3%nat = 3%nat -> height blank9 = 9 -> width blank9 = 9 ->
    (9 - 3) / 2 = 3 /\ (9 - 3) / 2 = 3) /\
   (3%nat = 3%nat -> 3%nat = 3%nat -> height blank9 = 8 -> width blank9 = 8 ->
    (9 - 3) / 2 = 2 /\ (9 - 3) / 2 = 2)).
Proof.
  split; [exact blank9_inv|].
  split; [by apply rectangular_dec|].
  split; [by vm_compute|]. split; [by vm_compute|].
  apply (centre_grid_placement blank9 glider 3 3 blank9_inv).
  - by apply rectangular_dec.
  - by vm_compute.
  - by vm_compute.
Defined.

(** ** C6: a pattern larger than the grid *)

Lemma half_bounds (x : Z) : 2 * (x / 2) <= x < 2 * (x / 2) + 2.
Proof.
  pose proof (Z.mul_div_le x 2). pose proof (Z.mul_succ_div_gt x 2). lia.
Qed.

Lemma index_valid (n : nat) (k : Z) :
  valid_index n k -> exists m, np.index n k = Ok m.
Proof.
  intros Hk. unfold np.index. case_bool_decide; [eauto|].
  rewrite bool_decide_eq_true_2; [eauto|]. unfold valid_index in Hk. lia.
Qed.

Lemma index_invalid (n : nat) (k : Z) :
  ~ valid_index n k -> np.index n k = Raise IndexError.
Proof.
  intros Hk. unfold np.index, valid_index in *.
  rewrite !bool_decide_eq_false_2; [done|lia..].
Qed.

Lemma shape_alter_insert (a : np.ndarray) (i j : nat) (v : Z) :
  np.shape (alter (fun row => <[j := v]> row) i a) = np.shape a.
Proof.
  unfold np.shape. rewrite length_alter. f_equal.
  destruct a as [|r a]; [done|]. destruct i; simpl; [|done].
  by rewrite length_insert.
Qed.

(** A write succeeds, keeping the shape, when both indices are valid
    for the array, and is an IndexError otherwise. *)
Lemma setitem_cases (a : np.ndarray) (H W : nat) (r c v : Z) :
  np.shape a = (H, W) ->
  (valid_index H r /\ valid_index W c ->
   exists a', np.setitem a r c v = Ok a' /\ np.shape a' = (H, W)) /\
  (~ (valid_index H r /\ valid_index W c) ->
   np.setitem a r c v = Raise IndexError).
Proof.
  intros Hs. unfold np.setitem. rewrite Hs. split.
  - intros [Hr Hc]. destruct (index_valid H r Hr) as [i ->].
    destruct (index_valid W c Hc) as [j ->]. simpl.
    eexists. split; [reflexivity|]. by rewrite shape_alter_insert.
  - intros Hn. destruct (decide (valid_index H r)) as [Hr|Hr].
    + destruct (index_valid H r Hr) as [i ->]. simpl.
      rewrite index_invalid; [done | tauto].
    + by rewrite index_invalid.
Qed.

(** The seeding loop over pattern cells: it runs through when every
    write lands on a valid index, and stops with an IndexError as soon as
    one does not. *)
Lemma place_loop (array : np.ndarray) (h w H W : nat) (hdiff wdiff : Z)
  (order : list (Z * Z)) :
  np.rectangular h w array ->
  Forall (in_array h w) order ->
  forall g, np.shape g = (H, W) ->
    (Forall (valid_target H W hdiff wdiff) order ->
     exists g', for_each order (place array hdiff wdiff) g = Ok g') /\
    (Exists (fun ij => ~ valid_target H W hdiff wdiff ij) order ->
     for_each order (place array hdiff wdiff) g = Raise IndexError).
Proof.
  intros Harr Hord. induction Hord as [|[i j] l [Hi Hj] Hl IH]; intros g Hg.
  - split; [by eexists|]. intros Hex. by apply Exists_nil in Hex.
  - simpl in Hi, Hj.
    destruct (getitem_in_range h w array i j Harr Hi Hj) as (x & _ & Hget).
    destruct (setitem_cases g H W (i + hdiff) (j + wdiff) x Hg) as [Hgood Hbad].
    simpl. unfold place at 1 3. simpl. rewrite Hget. simpl.
    destruct (decide (valid_target H W hdiff wdiff (i, j))) as [Hv|Hv].
    + destruct (Hgood Hv) as (g1 & -> & Hg1). simpl.
      destruct (IH g1 Hg1) as [IHok IHbad]. split.
      * intros Hall. apply Forall_cons in Hall as [_ Hall]. by apply IHok.
      * intros Hex. apply Exists_cons in Hex as [Hex|Hex]; [done | by apply IHbad].
    + rewrite (Hbad Hv). split; [|done].
      intros Hall. by apply Forall_cons in Hall as [? _].
Qed.

(** C6, as the code has it. For a pattern with at least one cell on a
    grid with at least one cell: [centre_grid] raises (an IndexError,
    from the first write off the array) when the pattern is at least two
    rows taller or two columns wider than the grid, and succeeds
    otherwise, so also for a pattern one row or one column larger than
    the grid. *)
Theorem centre_grid_oversize (self : Grid) (array : np.ndarray) (h w : nat) :
  Grid_inv self -> 0 < height self -> 0 < width self ->
  np.rectangular h w array -> (0 < h)%nat -> (0 < w)%nat ->
  (height self + 2 <= Z.of_nat h \/ width self + 2 <= Z.of_nat w ->
   centre_grid self array = Raise IndexError) /\
  (Z.of_nat h <= height self + 1 -> Z.of_nat w <= width self + 1 ->
   is_ok (centre_grid self array)).
Proof.
  intros Hinv HH HW Harr Hh Hw.
  assert (Hshape : np.shape array = (h, w)) by by apply shape_rectangular.
  assert (Hgs : np.shape (grid self)
                = (Z.to_nat (height self), Z.to_nat (width self))).
  { apply shape_rectangular; [apply Hinv | lia]. }
  pose proof (half_bounds (height self - Z.of_nat h)) as Hhd.
  pose proof (half_bounds (width self - Z.of_nat w)) as Hwd.
  destruct (place_loop array h w (Z.to_nat (height self)) (Z.to_nat (width self))
              ((height self - Z.of_nat h) / 2) ((width self - Z.of_nat w) / 2)
              (row_major (Z.of_nat h) (Z.of_nat w)) Harr)
    with (g := grid self) as [Hok Hbad]; [|done|].
  { apply Forall_forall. intros ij Hij. by apply elem_of_row_major in Hij. }
  unfold centre_grid. rewrite Hshape.
  rewrite (for_each_nested (range (Z.of_nat h)) (range (Z.of_nat w))
             (place array ((height self - Z.of_nat h) / 2)
                          ((width self - Z.of_nat w) / 2))).
  fold (row_major (Z.of_nat h) (Z.of_nat w)).
  split.
  - intros Hbig. rewrite Hbad; [done|]. apply Exists_exists.
    destruct Hbig as [Hbig|Hbig].
    + exists (Z.of_nat h - 1, 0). split.
      * apply elem_of_row_major. simpl. lia.
      * unfold valid_target, valid_index. simpl. lia.
    + exists (0, Z.of_nat w - 1). split.
      * apply elem_of_row_major. simpl. lia.
      * unfold valid_target, valid_index. simpl. lia.
  - intros Hsh Hsw. destruct Hok as [g' ->]; [|done].
    apply Forall_forall. intros ij Hij. apply elem_of_row_major in Hij.
    unfold valid_target, valid_index. lia.
Qed.

Lemma blank3_inv : Grid_inv blank3.
Proof. split; [by apply rectangular_dec | by left]. Qed.

Lemma centre_grid_oversize_witness :
  Grid_inv blank3 /\ 0 < height blank3 /\ 0 < width blank3 /\
  np.rectangular 5 3 taller /\ (0 < 5)%nat /\ (0 < 3)%nat /\
  (height blank3 + 2 <= 5 \/ width blank3 + 2 <= 3) /\
  centre_grid blank3 taller = Raise IndexError.
Proof.
  split; [exact blank3_inv|].
  split; [reflexivity|]. split; [reflexivity|].
  split; [by apply rectangular_dec|].
  split; [lia|]. split; [lia|].
  split; [left; by vm_compute|].
  apply (centre_grid_oversize blank3 taller 5 3 blank3_inv);
    [reflexivity | reflexivity | by apply rectangular_dec | lia | lia |].
  left. by vm_compute.
Defined.

(** A pattern of four rows on a grid of three is not refused: its first
    row lands on the last grid row and is overwritten there by its
    fourth. *)
Lemma centre_grid_oversize_counterexample :
  Z.of_nat (length tall) > height blank3 /\
  centre_grid blank3 tall
  = Ok (with_grid blank3 [[0; 0; 0]; [1; 0; 1]; [0; 1; 0]]).
Proof. split; [by vm_compute | reflexivity]. Qed.

(** ** C7: construction with explicit dimensions *)

Lemma zeros_rectangular (h w : Z) :
  np.rectangular (Z.to_nat h) (Z.to_nat w) (np.zeros h w).
Proof.
  unfold np.zeros. split; [by rewrite length_replicate|].
  apply Forall_replicate. by rewrite length_replicate.
Qed.

Lemma zeros_all_dead (h w : Z) : Forall (Forall (fun x => x = 0)) (np.zeros h w).
Proof. unfold np.zeros. by apply Forall_replicate, Forall_replicate. Qed.

(** C7, as the code has it. With explicit [width] and [height] the
    constructor exits when either is below 5, whatever the other
    arguments; otherwise, with no file and [random] false, it returns an
    all-dead grid of [height - 2] rows and [width - 2] columns (the
    requested size counts the border), with Conway's rules and the Moore
    neighbourhood. *)
Theorem init_dimensions (env : Env) (w h : Z) (fname : option string) (random : bool) :
  (w < 5 \/ h < 5 ->
   __init__ env (Some w) (Some h) fname random = Raise SystemExit) /\
  (5 <= w -> 5 <= h ->
   exists g,
     __init__ env (Some w) (Some h) None false = Ok g /\
     height g = h - 2 /\ width g = w - 2 /\
     np.rectangular (Z.to_nat (h - 2)) (Z.to_nat (w - 2)) (grid g) /\
     Forall (Forall (fun x => x = 0)) (grid g) /\
     born g = [3] /\ survive g = [2; 3] /\ neighbourhood_type g = "moore").
Proof.
  unfold __init__. simpl. destruct (get_terminal_size env) as [cols rows].
  split.
  - intros Hsmall.
    destruct (w <? 5) eqn:Ew; [done|]. destruct (h <? 5) eqn:Eh; [done|]. lia.
  - intros Hw Hh.
    replace (w <? 5) with false by lia. replace (h <? 5) with false by lia.
    simpl. eexists. split; [reflexivity|]. simpl.
    split; [done|]. split; [done|].
    split; [apply zeros_rectangular|]. split; [apply zeros_all_dead|]. done.
Qed.

Lemma init_dimensions_witness :
  (3 < 5 \/ 7 < 5) /\ 5 <= 7 /\ 5 <= 6 /\
  __init__ env0 (Some 3) (Some 7) None true = Raise SystemExit /\
  exists g,
    __init__ env0 (Some 7) (Some 6) None false = Ok g /\
    height g = 6 - 2 /\ width g = 7 - 2 /\
    np.rectangular (Z.to_nat (6 - 2)) (Z.to_nat (7 - 2)) (grid g) /\
    Forall (Forall (fun x => x = 0)) (grid g) /\
    born g = [3] /\ survive g = [2; 3] /\ neighbourhood_type g = "moore".
Proof.
  split; [left; lia|]. split; [lia|]. split; [lia|]. split.
  - apply (init_dimensions env0 3 7 None true). left. lia.
  - apply (init_dimensions env0 7 6 None false); lia.
Defined.

(** Asked for 5 x 5, the constructor builds a grid of 3 x 3. *)
Lemma init_dimensions_counterexample :
  exists g,
    __init__ env0 (Some 5) (Some 5) None false = Ok g /\
    np.shape (grid g) = (3%nat, 3%nat) /\
    np.shape (grid g) <> (5%nat, 5%nat).
Proof. eexists. split; [reflexivity|]. split; [reflexivity | discriminate]. Qed.

(** ** C8: the B/S notation *)

Lemma sort_asc_sorted (l : list Z) : Sorted Z.le l -> sort_asc l = l.
Proof.
  induction 1 as [|x l Hs IH Hhd]; [done|].
  simpl. rewrite IH. destruct Hhd as [|y l' Hxy]; [done|].
  simpl. by rewrite (proj2 (Z.leb_le x y) Hxy).
Qed.

(** C8, as the code has it. [get_rules] joins the decimal renderings of
    the born values, then of the survive values, in the order the two
    lists store them; it does not sort.  When both lists are stored in
    ascending order the result is the notation with sorted digits, and
    for born = [3], survive = [2, 3] it is "B3/S23". *)
Theorem get_rules_notation (self : Grid) :
  get_rules self
  = String.append "B"
      (String.append (join_str (born self))
         (String.append "/S" (join_str (survive self)))) /\
  (Sorted Z.le (born self) -> Sorted Z.le (survive self) ->
   get_rules self = to_notation self) /\
  (born self = [3] -> survive self = [2; 3] -> get_rules self = "B3/S23").
Proof.
  split; [reflexivity|]. split.
  - intros Hb Hs. unfold to_notation. by rewrite !sort_asc_sorted.
  - intros Hb Hs. unfold get_rules. by rewrite Hb, Hs.
Qed.

Lemma get_rules_notation_witness :
  Sorted Z.le (born blinker) /\ Sorted Z.le (survive blinker) /\
  born blinker = [3] /\ survive blinker = [2; 3] /\
  get_rules blinker = to_notation blinker /\
  get_rules blinker = "B3/S23".
Proof.
  assert (Hb : Sorted Z.le (born blinker)) by (repeat constructor).
  assert (Hs : Sorted Z.le (survive blinker)).
  { repeat constructor. simpl. lia. }
  split; [exact Hb|]. split; [exact Hs|].
  split; [reflexivity|]. split; [reflexivity|].
  split.
  - exact (proj1 (proj2 (get_rules_notation blinker)) Hb Hs).
  - exact (proj2 (proj2 (get_rules_notation blinker)) eq_refl eq_refl).
Defined.

(** With survive stored as [3, 2] the digits come out in that order. *)
Lemma get_rules_counterexample :
  get_rules unsorted_rules = "B3/S32" /\
  to_notation unsorted_rules = "B3/S23" /\
  get_rules unsorted_rules <> to_notation unsorted_rules.
Proof. split; [reflexivity|]. split; [reflexivity | discriminate]. Qed.

(** ** C9: the animation loop *)

Lemma for_each_is_ok {A S : Type} (l : list A) (body : A -> S -> result S) (s : S) :
  (forall x s', x ∈ l -> is_ok (body x s')) -> is_ok (for_each l body s).
Proof.
  revert s. induction l as [|x l IH]; intros s Hbody; simpl; [done|].
  pose proof (Hbody x s (list_elem_of_here x l)) as Hx.
  destruct (body x s) as [s1|e]; simpl; [|done].
  apply IH. intros y s' Hy. apply Hbody. by apply list_elem_of_further.
Qed.

Lemma __str___ok (self : Grid) : Grid_inv self -> __str__ self = Ok (render self).
Proof.
  intros [[Hlen _] _]. unfold render.
  assert (is_ok (__str__ self)) as Hok; [|by destruct (__str__ self)].
  unfold __str__.
  match goal with
  | |- is_ok (bind ?m _) => assert (is_ok m) as Hloop; [|by destruct m]
  end.
  apply for_each_is_ok. intros i top Hi. apply elem_of_range in Hi.
  unfold grid_row. rewrite index_in_range by lia. simpl.
  destruct (lookup_lt_is_Some_2 (grid self) (Z.to_nat i)) as [row ->]; [lia|done].
Qed.

Lemma step_inv (self : Grid) : Grid_inv self -> Grid_inv (step self).
Proof. apply next_grid_inv. Qed.

Lemma generation_inv (self : Grid) (k : nat) :
  Grid_inv self -> Grid_inv (generation self k).
Proof.
  revert self. induction k as [|k IH]; intros self Hinv; simpl; [done|].
  by apply IH, step_inv.
Qed.

Lemma iterate_spec (mem : nat -> nat -> Z) (self : Grid) (out : list event) :
  Grid_inv self -> 0 < fps self ->
  iterate mem (self, out) = Ok (step self, out ++ frame_events (step self)).
Proof.
  intros Hinv Hfps. unfold iterate. rewrite (update_grid_next mem self Hinv).
  simpl bind. fold (step self). rewrite (__str___ok (step self)) by by apply step_inv.
  simpl bind. unfold pace. simpl fps.
  replace (fps self =? 0) with false by lia.
  replace (fps self <? 0) with false by lia. simpl bind.
  unfold frame_events. simpl clear.
  destruct (clear self); by rewrite <- ?app_assoc.
Qed.

Lemma count_frames_app (a b : list event) :
  count_frames (a ++ b) = (count_frames a + count_frames b)%nat.
Proof. unfold count_frames. by rewrite List.filter_app, length_app. Qed.

Lemma count_frames_trace (self : Grid) (k : nat) : count_frames (trace self k) = k.
Proof.
  revert self. induction k as [|k IH]; intros self; simpl; [done|].
  rewrite count_frames_app, IH. unfold frame_events.
  by destruct (clear (step self)).
Qed.

Lemma running_until_S (self : Grid) (k : nat) :
  all_dead_or_alive (step self) = false ->
  running_until (step self) k -> running_until self (S k).
Proof.
  intros H1 Hk m Hm. destruct m as [|m]; [lia|]. simpl.
  destruct m as [|m]; [done|]. apply Hk. lia.
Qed.

Lemma run_for_spec (mem : nat -> nat -> Z) (n : nat) :
  forall self out, Grid_inv self -> 0 < fps self ->
    exists k,
      run_for mem n (self, out) = Ok (generation self k, out ++ trace self k) /\
      (k <= n)%nat /\ running_until self k /\
      (k = n \/ ((1 <= k)%nat /\ all_dead_or_alive (generation self k) = true)).
Proof.
  induction n as [|n IH]; intros self out Hinv Hfps.
  - exists 0%nat. simpl. rewrite app_nil_r.
    split; [done|]. split; [done|]. split; [|by left]. intros m Hm. lia.
  - cbn [run_for]. rewrite (iterate_spec mem self out Hinv Hfps). cbn [bind fst].
    destruct (all_dead_or_alive (step self)) eqn:Hq.
    + exists 1%nat. simpl. rewrite app_nil_r.
      split; [done|]. split; [lia|]. split; [|right; by split].
      intros m Hm. lia.
    + destruct (IH (step self) (out ++ frame_events (step self)))
        as (k & Hrun & Hle & Hbefore & Hstop); [by apply step_inv | done |].
      exists (S k). simpl. rewrite Hrun, <- app_assoc.
      split; [done|]. split; [lia|]. split; [by apply running_until_S|].
      destruct Hstop as [->|[Hk Hqk]]; [by left | right; split; [lia | done]].
Qed.

Lemma run_while_spec (mem : nat -> nat -> Z) (fuel : nat) :
  forall self out, Grid_inv self -> 0 < fps self ->
    match run_while mem fuel (self, out) with
    | None => running_until self (S fuel)
    | Some r =>
        exists k,
          (1 <= k <= fuel)%nat /\
          r = Ok (generation self k, out ++ trace self k) /\
          running_until self k /\
          all_dead_or_alive (generation self k) = true
    end.
Proof.
  induction fuel as [|fuel IH]; intros self out Hinv Hfps.
  - simpl. intros m Hm. lia.
  - cbn [run_while]. rewrite (iterate_spec mem self out Hinv Hfps). cbn [fst].
    destruct (all_dead_or_alive (step self)) eqn:Hq.
    + exists 1%nat. simpl. rewrite app_nil_r.
      split; [lia|]. split; [done|]. split; [|done]. intros m Hm. lia.
    + specialize (IH (step self) (out ++ frame_events (step self))
                    (step_inv self Hinv) Hfps).
      destruct (run_while mem fuel _) as [r|].
      * destruct IH as (k & Hk & -> & Hbefore & Hqk).
        exists (S k). simpl. rewrite <- app_assoc.
        split; [lia|]. split; [done|]. split; [by apply running_until_S | done].
      * by apply running_until_S.
Qed.

Lemma count_nonzero_1d_le (l : list Z) :
  0 <= np.count_nonzero_1d l <= Z.of_nat (length l).
Proof.
  induction l as [|x l IH]; [by vm_compute|].
  rewrite count_nonzero_1d_cons. simpl length. destruct (np.nonzero x); lia.
Qed.

Lemma count_nonzero_1d_none (l : list Z) :
  np.count_nonzero_1d l = 0 <-> Forall (fun x => x = 0) l.
Proof.
  induction l as [|x l IH]; [done|].
  rewrite count_nonzero_1d_cons, Forall_cons.
  pose proof (count_nonzero_1d_le l). unfold np.nonzero.
  destruct (x =? 0) eqn:E; simpl negb; cbv iota.
  - apply Z.eqb_eq in E. rewrite <- IH. lia.
  - apply Z.eqb_neq in E. lia.
Qed.

Lemma count_nonzero_1d_all (l : list Z) :
  np.count_nonzero_1d l = Z.of_nat (length l) <-> Forall (fun x => x <> 0) l.
Proof.
  induction l as [|x l IH]; [done|].
  rewrite count_nonzero_1d_cons, Forall_cons. simpl length.
  pose proof (count_nonzero_1d_le l). unfold np.nonzero.
  destruct (x =? 0) eqn:E; simpl negb; cbv iota.
  - apply Z.eqb_eq in E. lia.
  - apply Z.eqb_neq in E. rewrite <- IH. lia.
Qed.

Lemma size_rectangular (h w : nat) (a : np.ndarray) :
  np.rectangular h w a -> np.size a = Z.of_nat (length (concat a)).
Proof.
  intros Ha. destruct (decide (0 < h)%nat) as [Hh|Hh].
  - unfold np.size. rewrite (shape_rectangular h w a Ha Hh).
    destruct Ha as [<- Hw]. clear Hh.
    induction a as [|r a IH]; [done|].
    apply Forall_cons in Hw as [Hr Hw]. simpl concat.
    rewrite length_app, Hr. simpl length. specialize (IH Hw). lia.
  - destruct Ha as [Hlen _]. destruct a; [done | simpl in Hlen; lia].
Qed.

(** [all_dead_or_alive] holds when every cell is zero or every cell is
    not. *)
Lemma all_dead_or_alive_spec (self : Grid) :
  Grid_inv self ->
  all_dead_or_alive self = true <->
  Forall (Forall (fun x => x = 0)) (grid self) \/
  Forall (Forall (fun x => x <> 0)) (grid self).
Proof.
  intros [Hs _]. unfold all_dead_or_alive.
  rewrite (size_rectangular _ _ _ Hs), orb_true_iff, !Z.eqb_eq.
  unfold np.count_nonzero.
  by rewrite count_nonzero_1d_none, count_nonzero_1d_all, !Forall_concat.
Qed.

Lemma generation_S (self : Grid) (k : nat) :
  generation self (S k) = step (generation self k).
Proof.
  revert self. induction k as [|k IH]; intros self; [done|].
  change (generation self (S (S k))) with (generation (step self) (S k)).
  by rewrite IH.
Qed.

(** C9. On a constructed grid with a positive frame rate:
    - every generation is one [update_grid] of the one before, the
      output of [k] turns holds exactly [k] frames, the renderings of
      generations 1 to [k] in that order, and a grid is quiescent when
      all its cells are zero or all are non-zero;
    - with [niter] given, [run] returns after some [k] turns, [k] at most
      [niter] (none for [niter <= 0]); no grid before turn [k] was
      quiescent; and either [k] is [niter] or the grid after turn [k] is
      quiescent: nothing runs after the loop has stopped;
    - with no [niter], [run] is still looping after [fuel] turns exactly
      when none of the first [fuel] generations is quiescent, and
      otherwise it has returned after the first turn that left a
      quiescent grid. *)
Theorem run_stops (mem : nat -> nat -> Z) (self : Grid) :
  Grid_inv self -> 0 < fps self ->
  (forall k,
     update_grid mem (generation self k) = Ok (generation self (S k)) /\
     count_frames (trace self k) = k /\
     (all_dead_or_alive (generation self k) = true <->
      Forall (Forall (fun x => x = 0)) (grid (generation self k)) \/
      Forall (Forall (fun x => x <> 0)) (grid (generation self k)))) /\
  (forall fuel n, exists k,
     run mem fuel (Some n) self
     = Some (Ok (generation self k, [Title; Sleep] ++ trace self k)) /\
     Z.of_nat k <= Z.max 0 n /\
     running_until self k /\
     (Z.of_nat k = Z.max 0 n \/
      ((1 <= k)%nat /\ all_dead_or_alive (generation self k) = true))) /\
  (forall fuel,
     (run mem fuel None self = None <->
      forall m, (1 <= m <= fuel)%nat ->
                all_dead_or_alive (generation self m) = false) /\
     (forall r, run mem fuel None self = Some r ->
        exists k,
          (1 <= k <= fuel)%nat /\
          r = Ok (generation self k, [Title; Sleep] ++ trace self k) /\
          running_until self k /\
          all_dead_or_alive (generation self k) = true)).
Proof.
  intros Hinv Hfps. split; [|split].
  - intros k. split; [|split; [apply count_frames_trace|]].
    + rewrite generation_S. apply update_grid_next. by apply generation_inv.
    + by apply all_dead_or_alive_spec, generation_inv.
  - intros fuel n. unfold run.
    destruct (run_for_spec mem (Z.to_nat n) self [Title; Sleep] Hinv Hfps)
      as (k & Hrun & Hle & Hbefore & Hstop).
    exists k. rewrite Hrun. split; [done|]. split; [lia|]. split; [done|].
    destruct Hstop as [->|Hq]; [left; lia | by right].
  - intros fuel. unfold run.
    pose proof (run_while_spec mem fuel self [Title; Sleep] Hinv Hfps) as Hspec.
    destruct (run_while mem fuel (self, [Title; Sleep])) as [r|].
    + destruct Hspec as (k & Hk & -> & Hbefore & Hq). split.
      * split; [discriminate|]. intros Hnever.
        rewrite (Hnever k Hk) in Hq. discriminate.
      * intros r Hr. inversion Hr; subst r. exists k. done.
    + split; [|discriminate]. split; [|done].
      intros _ m Hm. apply Hspec. lia.
Qed.

Lemma run_stops_witness :
  Grid_inv blinker /\ 0 < fps blinker /\
  exists k,
    run (fun _ _ => 0) 0 (Some 3) blinker
    = Some (Ok (generation blinker k, [Title; Sleep] ++ trace blinker k)) /\
    Z.of_nat k <= Z.max 0 3 /\
    running_until blinker k /\
    (Z.of_nat k = Z.max 0 3 \/
     ((1 <= k)%nat /\ all_dead_or_alive (generation blinker k) = true)).
Proof.
  split; [exact blinker_inv|]. split; [reflexivity|].
  exact (proj1 (proj2 (run_stops (fun _ _ => 0) blinker blinker_inv eq_refl))
           0%nat 3).
Defined.

(** * Further properties of the grid engine *)

(** ** The torus *)

Lemma torus_periodic (self : Grid) (i j a b : Z) :
  torus self (i + a * height self) (j + b * width self) = torus self i j.
Proof.
  unfold torus.
  destruct (decide (height self = 0)) as [Hh|Hh];
    destruct (decide (width self = 0)) as [Hw|Hw];
    rewrite ?Hh, ?Hw, ?Z.mul_0_r, ?Z.add_0_r; try done;
    by rewrite ?Z_mod_plus_full.
Qed.

(** The next state of a cell only depends on the 3 x 3 block of the
    torus around it, on the rules and on the neighbourhood type. *)
Lemma _update_cell_local (self self' : Grid) (i j i' j' : Z) :
  Grid_inv self -> Grid_inv self' ->
  0 < height self -> 0 < width self -> 0 < height self' -> 0 < width self' ->
  born self' = born self -> survive self' = survive self ->
  neighbourhood_type self' = neighbourhood_type self ->
  (forall di dj, torus self' (i' + di) (j' + dj) = torus self (i + di) (j + dj)) ->
  _update_cell self' i' j' = _update_cell self i j.
Proof.
  intros Hinv Hinv' Hh Hw Hh' Hw' Hb Hs Hnt Ht.
  pose proof (Ht (-1) (-1)) as Hmm. pose proof (Ht (-1) 0) as Hm0.
  pose proof (Ht (-1) 1) as Hmp. pose proof (Ht 0 (-1)) as H0m.
  pose proof (Ht 0 0) as H00. pose proof (Ht 0 1) as H0p.
  pose proof (Ht 1 (-1)) as Hpm. pose proof (Ht 1 0) as Hp0.
  pose proof (Ht 1 1) as Hpp.
  rewrite ?Z.add_0_r in *.
  change (i + -1) with (i - 1) in *. change (j + -1) with (j - 1) in *.
  change (i' + -1) with (i' - 1) in *. change (j' + -1) with (j' - 1) in *.
  unfold _update_cell. rewrite Hb, Hs.
  destruct (inv_type self Hinv) as [Hty|Hty].
  - rewrite (_view_moore self' i' j'), (_view_moore self i j) by congruence.
    by rewrite Hmm, Hm0, Hmp, H0m, H00, H0p, Hpm, Hp0, Hpp.
  - rewrite (_view_vonneumann self' i' j'), (_view_vonneumann self i j)
      by congruence.
    by rewrite Hm0, H0m, H00, H0p, Hp0.
Qed.

Lemma next_cell_periodic (self : Grid) (i j a b : Z) :
  Grid_inv self -> 0 < height self -> 0 < width self ->
  next_cell self (i + a * height self) (j + b * width self) = next_cell self i j.
Proof.
  intros Hinv Hh Hw. unfold next_cell.
  rewrite (_update_cell_local self self i j (i + a * height self)
             (j + b * width self)); try done.
  intros di dj.
  replace (i + a * height self + di) with (i + di + a * height self) by lia.
  replace (j + b * width self + dj) with (j + dj + b * width self) by lia.
  apply torus_periodic.
Qed.

Lemma torus_step (self : Grid) (i j : Z) :
  Grid_inv self -> 0 < height self -> 0 < width self ->
  torus (step self) i j = next_cell self i j.
Proof.
  intros Hinv Hh Hw. unfold torus. simpl height. simpl width. simpl grid.
  pose proof (Z.mod_pos_bound i (height self) Hh).
  pose proof (Z.mod_pos_bound j (width self) Hw).
  unfold next_grid.
  rewrite (tabulate_cell (fun r c => next_cell self (Z.of_nat r) (Z.of_nat c)))
    by lia.
  simpl. rewrite !Z2Nat.id by lia.
  rewrite (Z.div_mod i (height self)) at 2 by lia.
  rewrite (Z.div_mod j (width self)) at 2 by lia.
  replace (height self * (i / height self) + i mod height self)
    with (i mod height self + (i / height self) * height self) by lia.
  replace (width self * (j / width self) + j mod width self)
    with (j mod width self + (j / width self) * width self) by lia.
  by rewrite next_cell_periodic.
Qed.

(** X1. Periodic boundary: the grid has no edge.  [_update_cell] called
    any number of grid heights and widths away from [(i, j)] returns what
    it returns at [(i, j)]. *)
Theorem _update_cell_periodic (self : Grid) (i j a b : Z) :
  Grid_inv self -> 0 < height self -> 0 < width self ->
  _update_cell self (i + a * height self) (j + b * width self)
  = _update_cell self i j.
Proof.
  intros Hinv Hh Hw. apply _update_cell_local; try done.
  intros di dj.
  replace (i + a * height self + di) with (i + di + a * height self) by lia.
  replace (j + b * width self + dj) with (j + dj + b * width self) by lia.
  apply torus_periodic.
Qed.

Lemma _update_cell_periodic_witness :
  Grid_inv blinker /\ 0 < height blinker /\ 0 < width blinker /\
  _update_cell blinker (1 + -1 * height blinker) (2 + 3 * width blinker)
  = _update_cell blinker 1 2.
Proof.
  split; [exact blinker_inv|]. split; [reflexivity|]. split; [reflexivity|].
  apply (_update_cell_periodic blinker 1 2 (-1) 3 blinker_inv); reflexivity.
Defined.

(** X2. Translating the pattern commutes with a generation: when one
    grid is the other moved by [(a, b)] on the torus, under the same
    rules, their next generations are moved by [(a, b)] as well. *)
Theorem update_grid_translation (mem mem' : nat -> nat -> Z)
  (self self' g1 g1' : Grid) (a b : Z) :
  Grid_inv self -> Grid_inv self' ->
  0 < height self -> 0 < width self ->
  same_settings self self' ->
  (forall i j, torus self' i j = torus self (i + a) (j + b)) ->
  update_grid mem self = Ok g1 -> update_grid mem' self' = Ok g1' ->
  forall i j, torus g1' i j = torus g1 (i + a) (j + b).
Proof.
  intros Hinv Hinv' Hh Hw (Hb & Hs & Hnt & Hhh & Hww) Hshift Hu Hu' i j.
  rewrite update_grid_next in Hu, Hu' by done.
  inversion Hu; inversion Hu'; subst g1 g1'.
  fold (step self) (step self').
  rewrite !torus_step by (done || lia).
  unfold next_cell.
  rewrite (_update_cell_local self self' (i + a) (j + b) i j);
    try done; try lia.
  intros di dj. rewrite Hshift. f_equal; lia.
Qed.

Lemma torus_mod (self : Grid) (i j : Z) :
  torus self (i mod height self) (j mod width self) = torus self i j.
Proof.
  unfold torus.
  destruct (decide (height self = 0)) as [Hh|Hh];
    destruct (decide (width self = 0)) as [Hw|Hw];
    rewrite ?Hh, ?Hw, ?Z.mod_0_r; try done;
    by rewrite ?Z.mod_mod.
Qed.

Lemma moved_by_spec (self self' : Grid) (a b : Z) :
  height self' = height self -> width self' = width self ->
  0 < height self -> 0 < width self ->
  moved_by self self' a b = true ->
  forall i j, torus self' i j = torus self (i + a) (j + b).
Proof.
  intros Hh Hw Hhp Hwp Hall i j. unfold moved_by in Hall.
  rewrite forallb_forall in Hall.
  pose proof (Z.mod_pos_bound i (height self) Hhp) as Hi.
  pose proof (Z.mod_pos_bound j (width self) Hwp) as Hj.
  specialize (Hall (i mod height self)).
  rewrite <- list_elem_of_In, elem_of_range in Hall. specialize (Hall Hi).
  rewrite forallb_forall in Hall. specialize (Hall (j mod width self)).
  rewrite <- list_elem_of_In, elem_of_range in Hall. specialize (Hall Hj).
  apply Z.eqb_eq in Hall.
  rewrite <- (torus_mod self' i j), Hh, Hw, Hall.
  rewrite (Z.div_mod i (height self)) at 2 by lia.
  rewrite (Z.div_mod j (width self)) at 2 by lia.
  replace (height self * (i / height self) + i mod height self + a)
    with (i mod height self + a + (i / height self) * height self) by lia.
  replace (width self * (j / width self) + j mod width self + b)
    with (j mod width self + b + (j / width self) * width self) by lia.
  by rewrite torus_periodic.
Qed.

Lemma blinker_moved_inv : Grid_inv blinker_moved.
Proof. split; [by apply rectangular_dec | by left]. Qed.

Lemma update_grid_translation_witness :
  Grid_inv blinker /\ Grid_inv blinker_moved /\
  0 < height blinker /\ 0 < width blinker /\
  same_settings blinker blinker_moved /\
  (forall i j, torus blinker_moved i j = torus blinker (i + 1) (j + -1)) /\
  update_grid (fun _ _ => 0) blinker = Ok (step blinker) /\
  update_grid (fun _ _ => 0) blinker_moved = Ok (step blinker_moved) /\
  forall i j,
    torus (step blinker_moved) i j = torus (step blinker) (i + 1) (j + -1).
Proof.
  assert (Hmoved : forall i j,
             torus blinker_moved i j = torus blinker (i + 1) (j + -1)).
  { apply moved_by_spec; reflexivity. }
  split; [exact blinker_inv|]. split; [exact blinker_moved_inv|].
  split; [reflexivity|]. split; [reflexivity|].
  split; [by repeat split|]. split; [exact Hmoved|].
  split; [apply update_grid_next, blinker_inv|].
  split; [apply update_grid_next, blinker_moved_inv|].
  apply (update_grid_translation (fun _ _ => 0) (fun _ _ => 0)
           blinker blinker_moved (step blinker) (step blinker_moved) 1 (-1)
           blinker_inv blinker_moved_inv);
    [reflexivity | reflexivity | by repeat split | exact Hmoved | |].
  - apply update_grid_next, blinker_inv.
  - apply update_grid_next, blinker_moved_inv.
Defined.

(** ** Uniform grids *)

Lemma torus_uniform (self : Grid) (v : Z) (i j : Z) :
  Grid_inv self -> 0 < height self -> 0 < width self ->
  Forall (Forall (fun x => x = v)) (grid self) -> torus self i j = v.
Proof.
  intros [Hs _] Hh Hw Hall. unfold torus.
  pose proof (Z.mod_pos_bound i (height self) Hh).
  pose proof (Z.mod_pos_bound j (width self) Hw).
  destruct (cell_is_Some _ _ (grid self) (Z.to_nat (i mod height self))
              (Z.to_nat (j mod width self)) Hs) as [x Hx]; [lia..|].
  rewrite Hx. simpl. unfold cell in Hx.
  destruct (grid self !! Z.to_nat (i mod height self)) as [row|] eqn:Hrow;
    [|discriminate].
  rewrite Forall_lookup in Hall. specialize (Hall _ _ Hrow).
  rewrite Forall_lookup in Hall. exact (Hall _ _ Hx).
Qed.

Lemma next_grid_uniform (self : Grid) (v : Z) :
  (forall i j, next_cell self i j = v) ->
  Forall (Forall (fun x => x = v)) (next_grid self).
Proof.
  intros Hv. unfold next_grid.
  apply Forall_fmap, Forall_forall. intros r _. simpl.
  apply Forall_fmap, Forall_forall. intros c _. simpl. apply Hv.
Qed.

(** X3. What becomes of a uniform grid.  An all-dead grid turns
    all alive when 0 is in [born] and stays all dead otherwise; a grid
    of all live cells (all 1) stays so when the full neighbour count, 8
    for Moore and 4 for von Neumann, is in [survive], and dies out
    entirely otherwise. *)
Theorem update_grid_uniform (mem : nat -> nat -> Z) (self : Grid) :
  Grid_inv self -> 0 < height self -> 0 < width self ->
  exists g',
    update_grid mem self = Ok (with_grid self g') /\
    (Forall (Forall (fun x => x = 0)) (grid self) ->
     Forall (Forall (fun x => x = if py_in 0 (born self) then 1 else 0)) g') /\
    (Forall (Forall (fun x => x = 1)) (grid self) ->
     Forall (Forall (fun x => x = if py_in (full_count self) (survive self)
                                  then 1 else 0)) g').
Proof.
  intros Hinv Hh Hw. exists (next_grid self).
  split; [by apply update_grid_next|]. split.
  - intros Hdead. apply next_grid_uniform. intros i j. unfold next_cell, _update_cell.
    destruct (inv_type self Hinv) as [Hnt|Hnt].
    + rewrite _view_moore by done.
      rewrite !(torus_uniform self 0) by done. simpl.
      match goal with
      | |- context [py_in ?n _] =>
          let v := eval vm_compute in n in change n with v
      end.
      by destruct (py_in 0 (born self)).
    + rewrite _view_vonneumann by done.
      rewrite !(torus_uniform self 0) by done. simpl.
      match goal with
      | |- context [py_in ?n _] =>
          let v := eval vm_compute in n in change n with v
      end.
      by destruct (py_in 0 (born self)).
  - intros Hlive. apply next_grid_uniform. intros i j.
    unfold next_cell, _update_cell, full_count.
    destruct (inv_type self Hinv) as [Hnt|Hnt]; rewrite Hnt.
    + rewrite _view_moore by done.
      rewrite !(torus_uniform self 1) by done. simpl.
      match goal with
      | |- context [py_in ?n _] =>
          let v := eval vm_compute in n in change n with v
      end.
      by destruct (py_in 8 (survive self)).
    + rewrite _view_vonneumann by done.
      rewrite !(torus_uniform self 1) by done. simpl.
      match goal with
      | |- context [py_in ?n _] =>
          let v := eval vm_compute in n in change n with v
      end.
      by destruct (py_in 4 (survive self)).
Qed.

Lemma crowded_inv : Grid_inv crowded.
Proof. split; [by apply rectangular_dec | by left]. Qed.

Lemma update_grid_uniform_witness :
  Grid_inv crowded /\ 0 < height crowded /\ 0 < width crowded /\
  Forall (Forall (fun x => x = 1)) (grid crowded) /\
  exists g',
    update_grid (fun _ _ => 7) crowded = Ok (with_grid crowded g') /\
    Forall (Forall (fun x => x = 0)) g'.
Proof.
  assert (Hlive : Forall (Forall (fun x => x = 1)) (grid crowded))
    by (repeat constructor).
  split; [exact crowded_inv|]. split; [reflexivity|]. split; [reflexivity|].
  split; [exact Hlive|].
  destruct (update_grid_uniform (fun _ _ => 7) crowded crowded_inv eq_refl eq_refl)
    as (g' & Hrun & _ & Hall).
  exists g'. split; [exact Hrun | exact (Hall Hlive)].
Defined.

(** ** Rule entries out of reach *)

Lemma torus_binary (self : Grid) (i j : Z) :
  binary (grid self) -> torus self i j = 0 \/ torus self i j = 1.
Proof.
  intros Hbin. unfold torus, cell.
  destruct (grid self !! Z.to_nat (i mod height self)) as [row|] eqn:Hrow;
    [|by left].
  destruct (row !! Z.to_nat (j mod width self)) as [x|] eqn:Hx; [|by left].
  simpl. unfold binary in Hbin. rewrite Forall_lookup in Hbin.
  specialize (Hbin _ _ Hrow). rewrite Forall_lookup in Hbin.
  exact (Hbin _ _ Hx).
Qed.

Ltac bound_indicators :=
  repeat match goal with
         | |- context [if np.nonzero ?x then 1 else 0] =>
             let H := fresh "Hind" in
             assert (0 <= (if np.nonzero x then 1 else 0) <= 1) as H
               by (destruct (np.nonzero x); lia);
             generalize dependent (if np.nonzero x then 1 else 0); intros
         end.

(** On a cell that is 0 or 1 the count lies between 0 and the size of
    the neighbourhood. *)
Lemma count_in_reach (self : Grid) (i j : Z) (v : view) (c : Z) :
  Grid_inv self -> 0 < height self -> 0 < width self ->
  torus self i j = 0 \/ torus self i j = 1 ->
  _view self i j = Ok (v, c) ->
  reachable self (count_nonzero v - c) = true.
Proof.
  intros Hinv Hh Hw Hc Hv. unfold reachable, full_count.
  destruct (inv_type self Hinv) as [Hnt|Hnt]; rewrite Hnt; simpl String.eqb;
    cbv iota.
  - rewrite _view_moore in Hv by done. inversion Hv; subst v c. clear Hv.
    unfold count_nonzero, np.count_nonzero. simpl concat.
    rewrite !count_nonzero_1d_cons.
    change (np.count_nonzero_1d []) with 0.
    destruct Hc as [-> | ->];
      [change (np.nonzero 0) with false | change (np.nonzero 1) with true];
      cbv iota; bound_indicators; lia.
  - rewrite _view_vonneumann in Hv by done. inversion Hv; subst v c. clear Hv.
    unfold count_nonzero.
    rewrite !count_nonzero_1d_cons.
    change (np.count_nonzero_1d []) with 0.
    destruct Hc as [-> | ->];
      [change (np.nonzero 0) with false | change (np.nonzero 1) with true];
      cbv iota; bound_indicators; lia.
Qed.

Lemma py_in_filter (p : Z -> bool) (n : Z) (l : list Z) :
  p n = true -> py_in n (List.filter p l) = py_in n l.
Proof.
  intros Hp. unfold py_in. induction l as [|x l IH]; [done|]. simpl.
  destruct (p x) eqn:Hx; simpl; [by rewrite IH|].
  rewrite IH. destruct (n =? x) eqn:E; [|done].
  apply Z.eqb_eq in E. congruence.
Qed.

(** X4. On a grid of zeros and ones a count is at least 0 and at
    most 8 (Moore) or 4 (von Neumann), so the entries of [born] and
    [survive] outside that range never fire: dropping them changes
    neither the next state of any cell nor the next generation. *)
Theorem update_grid_prune (mem : nat -> nat -> Z) (self : Grid) :
  Grid_inv self -> 0 < height self -> 0 < width self ->
  binary (grid self) ->
  (forall i j, _update_cell (prune self) i j = _update_cell self i j) /\
  exists g',
    update_grid mem self = Ok (with_grid self g') /\
    update_grid mem (prune self) = Ok (with_grid (prune self) g').
Proof.
  intros Hinv Hh Hw Hbin.
  assert (Hcell : forall i j,
             _update_cell (prune self) i j = _update_cell self i j).
  { intros i j. unfold _update_cell.
    change (_view (prune self) i j) with (_view self i j).
    destruct (_view_ok self i j Hinv Hh Hw) as [v Hv]. rewrite Hv. simpl.
    pose proof (count_in_reach self i j v _ Hinv Hh Hw
                  (torus_binary self i j Hbin) Hv) as Hreach.
    by rewrite !py_in_filter. }
  split; [exact Hcell|].
  assert (Hinv' : Grid_inv (prune self)) by (destruct Hinv; by split).
  exists (next_grid self). split; [by apply update_grid_next|].
  rewrite (update_grid_next mem (prune self) Hinv'). do 2 f_equal.
  eapply rectangular_ext; [apply tabulate_rectangular.. |].
  intros r c Hr Hc. unfold next_grid. simpl height. simpl width.
  rewrite (tabulate_cell (fun r c => next_cell (prune self) (Z.of_nat r) (Z.of_nat c)))
    by done.
  rewrite (tabulate_cell (fun r c => next_cell self (Z.of_nat r) (Z.of_nat c)))
    by done.
  unfold next_cell. by rewrite Hcell.
Qed.

Lemma padded_rules_inv : Grid_inv padded_rules.
Proof. split; [by apply rectangular_dec | by left]. Qed.

Lemma update_grid_prune_witness :
  Grid_inv padded_rules /\ 0 < height padded_rules /\ 0 < width padded_rules /\
  binary (grid padded_rules) /\
  born (prune padded_rules) = [3] /\ survive (prune padded_rules) = [2; 3] /\
  (forall i j,
     _update_cell (prune padded_rules) i j = _update_cell padded_rules i j).
Proof.
  assert (Hbin : binary (grid padded_rules)).
  { repeat (constructor; [repeat (constructor; [lia|]); constructor|]).
    constructor. }
  split; [exact padded_rules_inv|]. split; [reflexivity|]. split; [reflexivity|].
  split; [exact Hbin|]. split; [reflexivity|]. split; [reflexivity|].
  exact (proj1 (update_grid_prune (fun _ _ => 0) padded_rules padded_rules_inv
                  eq_refl eq_refl Hbin)).
Defined.

(** ** The constructor *)

Lemma even_minus_2 (x : Z) : (x - 2) mod 2 = x mod 2.
Proof. replace (x - 2) with (x + (-1) * 2) by lia. apply Z_mod_plus_full. Qed.

Lemma round_down_even (x : Z) :
  let w := if x mod 2 =? 0 then x else x - 1 in
  w mod 2 = 0 /\ x - 1 <= w <= x.
Proof.
  pose proof (Z.mod_pos_bound x 2 ltac:(lia)) as Hb.
  simpl. destruct (x mod 2 =? 0) eqn:E.
  - apply Z.eqb_eq in E. lia.
  - apply Z.eqb_neq in E. split; [|lia].
    rewrite <- (Z_mod_plus_full (x - 1) 1 2).
    replace (x - 1 + 1 * 2) with (x + 1) by lia.
    rewrite Z.add_mod by lia. by replace (x mod 2) with 1 by lia.
Qed.

Lemma round_down_odd (x : Z) :
  let h := if negb (x mod 2 =? 0) then x else x - 1 in
  h mod 2 = 1 /\ x - 1 <= h <= x.
Proof.
  pose proof (Z.mod_pos_bound x 2 ltac:(lia)) as Hb.
  simpl. destruct (x mod 2 =? 0) eqn:E; simpl negb; cbv iota.
  - apply Z.eqb_eq in E. split; [|lia].
    rewrite <- (Z_mod_plus_full (x - 1) 1 2).
    replace (x - 1 + 1 * 2) with (x + 1) by lia.
    rewrite Z.add_mod by lia. by rewrite E.
  - apply Z.eqb_neq in E. lia.
Qed.

(** X5. Sizing from the terminal.  With no [width] and [height] the
    constructor exits when the terminal has at most 6 columns or at most
    5 rows; otherwise the grid it builds has an even width and an odd
    height, and with its border it leaves one or two columns and one or
    two rows of the terminal unused. *)
Theorem init_terminal_size (env : Env) (cols rows : Z)
  (fname : option string) (random : bool) :
  get_terminal_size env = (cols, rows) ->
  (cols <= 6 \/ rows <= 5 ->
   __init__ env None None fname random = Raise SystemExit) /\
  (7 <= cols -> 6 <= rows ->
   exists g,
     __init__ env None None None false = Ok g /\
     width g mod 2 = 0 /\ height g mod 2 = 1 /\
     cols - 4 <= width g <= cols - 3 /\
     rows - 4 <= height g <= rows - 3 /\
     grid g = np.zeros (height g) (width g)).
Proof.
  intros Hts. unfold __init__. simpl. rewrite Hts.
  destruct (round_down_even (cols - 1)) as [Hwe Hwb].
  destruct (round_down_odd (rows - 1)) as [Hho Hhb].
  set (w := if (cols - 1) mod 2 =? 0 then cols - 1 else cols - 1 - 1) in *.
  set (h := if negb ((rows - 1) mod 2 =? 0) then rows - 1 else rows - 1 - 1) in *.
  pose proof (Z.div_mod w 2 ltac:(lia)) as Hwd.
  pose proof (Z.div_mod h 2 ltac:(lia)) as Hhd.
  split.
  - intros Hsmall.
    destruct (w <? 5) eqn:Ea; [done|]. destruct (h <? 5) eqn:Eb; [done|]. lia.
  - intros Hcols Hrows.
    replace (w <? 5) with false by lia. replace (h <? 5) with false by lia.
    simpl. eexists. split; [reflexivity|]. simpl.
    rewrite !even_minus_2. repeat split; try done; lia.
Qed.

Lemma init_terminal_size_witness :
  get_terminal_size env0 = (80, 24) /\ get_terminal_size env_narrow = (6, 24) /\
  __init__ env_narrow None None None true = Raise SystemExit /\
  exists g,
    __init__ env0 None None None false = Ok g /\
    width g mod 2 = 0 /\ height g mod 2 = 1 /\
    80 - 4 <= width g <= 80 - 3 /\
    24 - 4 <= height g <= 24 - 3 /\
    grid g = np.zeros (height g) (width g).
Proof.
  split; [reflexivity|]. split; [reflexivity|]. split.
  - apply (init_terminal_size env_narrow 6 24 None true eq_refl). left. lia.
  - apply (init_terminal_size env0 80 24 None false eq_refl); lia.
Defined.

(** X6. A grid the constructor returns without a seed file has at
    least 3 rows and 3 columns, an array of exactly that shape, Conway's
    rules on the Moore neighbourhood (which pass the compatibility
    test), 60 frames per second and screen clearing on; so it can always
    be advanced: [update_grid] does not raise on it.  (The random
    generator is taken to return an array of the shape asked for.) *)
Theorem init_invariant (env : Env) (width_arg height_arg : option Z)
  (random : bool) (mem : nat -> nat -> Z) (g : Grid) :
  (forall h w, np.rectangular (Z.to_nat h) (Z.to_nat w) (rng_integers env h w)) ->
  __init__ env width_arg height_arg None random = Ok g ->
  Grid_inv g /\ 3 <= height g /\ 3 <= width g /\
  born g = [3] /\ survive g = [2; 3] /\ neighbourhood_type g = "moore" /\
  fps g = 60 /\ clear g = true /\
  check_compatible g = Ok g /\
  is_ok (update_grid mem g).
Proof.
  intros Hrng. unfold __init__. simpl.
  destruct (get_terminal_size env) as [cols rows].
  set (w := match width_arg with
            | Some w => w
            | None => if (cols - 1) mod 2 =? 0 then cols - 1 else cols - 1 - 1
            end).
  set (h := match height_arg with
            | Some h => h
            | None => if negb ((rows - 1) mod 2 =? 0) then rows - 1
                      else rows - 1 - 1
            end).
  destruct (w <? 5) eqn:Ew; [discriminate|].
  destruct (h <? 5) eqn:Eh; [discriminate|]. simpl.
  assert (Hinv : forall a,
             np.rectangular (Z.to_nat (h - 2)) (Z.to_nat (w - 2)) a ->
             Grid_inv (mkGrid true 60 [3] [2; 3] "moore" (w - 2) (h - 2) a)).
  { intros a Ha. split; [exact Ha | by left]. }
  destruct random; intros Hg; inversion Hg; subst g; clear Hg; simpl.
  - pose proof (Hinv _ (Hrng (h - 2) (w - 2))) as Hi.
    repeat split; try done; try lia; try apply Hi.
    by rewrite update_grid_next.
  - pose proof (Hinv _ (zeros_rectangular (h - 2) (w - 2))) as Hi.
    repeat split; try done; try lia; try apply Hi.
    by rewrite update_grid_next.
Qed.

Lemma init_invariant_witness :
  (forall h w, np.rectangular (Z.to_nat h) (Z.to_nat w) (rng_integers env1 h w)) /\
  exists g,
    __init__ env1 (Some 8) None None true = Ok g /\
    Grid_inv g /\ 3 <= height g /\ 3 <= width g /\
    born g = [3] /\ survive g = [2; 3] /\ neighbourhood_type g = "moore" /\
    fps g = 60 /\ clear g = true /\
    check_compatible g = Ok g /\
    is_ok (update_grid (fun _ _ => 0) g).
Proof.
  assert (Hrng : forall h w,
             np.rectangular (Z.to_nat h) (Z.to_nat w) (rng_integers env1 h w))
    by (intros h w; apply zeros_rectangular).
  split; [exact Hrng|]. eexists. split; [reflexivity|].
  exact (init_invariant env1 (Some 8) None true (fun _ _ => 0) _ Hrng eq_refl).
Defined.

(** Centring a pattern that fits, cell by cell. *)
Lemma centre_grid_fits (self : Grid) (array : np.ndarray) (h w : nat) :
  Grid_inv self -> np.rectangular h w array ->
  Z.of_nat h <= height self -> Z.of_nat w <= width self ->
  exists g',
    centre_grid self array = Ok (with_grid self g') /\
    np.rectangular (Z.to_nat (height self)) (Z.to_nat (width self)) g' /\
    forall r c, 0 <= r < height self -> 0 <= c < width self ->
      cell g' (Z.to_nat r) (Z.to_nat c) =
        if decide ((height self - Z.of_nat h) / 2 <= r
                     < (height self - Z.of_nat h) / 2 + Z.of_nat h /\
                   (width self - Z.of_nat w) / 2 <= c
                     < (width self - Z.of_nat w) / 2 + Z.of_nat w)
        then cell array (Z.to_nat (r - (height self - Z.of_nat h) / 2))
                        (Z.to_nat (c - (width self - Z.of_nat w) / 2))
        else cell (grid self) (Z.to_nat r) (Z.to_nat c).
Proof.
  intros Hinv Harr Hh Hw.
  pose proof (half_bounds (height self - Z.of_nat h)) as Hhd.
  pose proof (half_bounds (width self - Z.of_nat w)) as Hwd.
  set (hdiff := (height self - Z.of_nat h) / 2) in *.
  set (wdiff := (width self - Z.of_nat w) / 2) in *.
  destruct (decide (h = 0%nat)) as [->|Hpos].
  - destruct Harr as [Hlen _]. destruct array; [|discriminate].
    exists (grid self). split; [|split; [apply Hinv|]].
    + unfold centre_grid. simpl. by destruct self.
    + intros r c Hr Hc. rewrite decide_False; [done | lia].
  - assert (Hshape : np.shape array = (h, w))
      by (apply shape_rectangular; [done | lia]).
    destruct (place_spec array h w (Z.to_nat (height self)) (Z.to_nat (width self))
                hdiff wdiff (row_major (Z.of_nat h) (Z.of_nat w)) Harr)
      with (g := grid self) as (g' & Hrun & Hrect & Hcell); [lia..| |apply Hinv|].
    { apply Forall_forall. intros ij Hij. by apply elem_of_row_major in Hij. }
    exists g'. split; [|split; [done|]].
    + unfold centre_grid. rewrite Hshape. fold hdiff wdiff.
      rewrite (for_each_nested (range (Z.of_nat h)) (range (Z.of_nat w))
                 (place array hdiff wdiff)).
      fold (row_major (Z.of_nat h) (Z.of_nat w)). by rewrite Hrun.
    + intros r c Hr Hc. rewrite Hcell by lia. rewrite !Z2Nat.id by lia.
      destruct (decide (hdiff <= r < hdiff + Z.of_nat h /\
                        wdiff <= c < wdiff + Z.of_nat w)) as [Hin|Hout].
      * rewrite decide_True; [done|]. apply elem_of_row_major. simpl. lia.
      * rewrite decide_False; [done|]. intros Hin.
        apply elem_of_row_major in Hin. simpl in Hin. lia.
Qed.

Lemma zeros_cell (h w : Z) (r c : nat) :
  (r < Z.to_nat h)%nat -> (c < Z.to_nat w)%nat ->
  cell (np.zeros h w) r c = Some 0.
Proof.
  intros Hr Hc. unfold cell, np.zeros.
  rewrite lookup_replicate_2 by done. by apply lookup_replicate_2.
Qed.

(** The constructor with an explicit size of at least 5 x 5. *)
Lemma init_explicit (env : Env) (w h : Z) (fname : option string) (random : bool) :
  5 <= w -> 5 <= h ->
  __init__ env (Some w) (Some h) fname random =
    let self := mkGrid true 60 [3] [2; 3] "moore" (w - 2) (h - 2)
                  (np.zeros (h - 2) (w - 2)) in
    match fname with
    | Some f => read_from_file env self f
    | None =>
        if random
        then Ok (with_grid self (rng_integers env (h - 2) (w - 2)))
        else Ok self
    end.
Proof.
  intros Hw Hh. unfold __init__.
  cbn [set_clear_terminal set_fps set_rules set_neighbourhood_type bind
       with_clear with_fps with_born with_survive with_neighbourhood_type
       blank clear fps born survive neighbourhood_type width height grid].
  change (lower "Moore") with "moore". simpl String.eqb. cbn [negb orb bind].
  change (check_compatible (mkGrid true 60 [3] [2; 3] "moore" 0 0 []))
    with (Ok (mkGrid true 60 [3] [2; 3] "moore" 0 0 [])).
  cbn [bind]. destruct (get_terminal_size env) as [cols rows].
  replace (w <? 5) with false by lia. replace (h <? 5) with false by lia.
  cbn [orb]. by destruct fname.
Qed.

(** X7. Construction from a seed file.  With a size of at least
    5 x 5, an exception of the file reader comes out of the constructor
    unchanged; a pattern that fits the [height - 2] by [width - 2] grid
    is centred on an otherwise dead grid; and [random] plays no part. *)
Theorem init_from_file (env : Env) (w h : Z) (f : string) (random : bool) :
  5 <= w -> 5 <= h ->
  (forall e, genfromtxt env f = Raise e ->
     __init__ env (Some w) (Some h) (Some f) random = Raise e) /\
  (forall array ph pw,
     genfromtxt env f = Ok array -> np.rectangular ph pw array ->
     Z.of_nat ph <= h - 2 -> Z.of_nat pw <= w - 2 ->
     exists g,
       __init__ env (Some w) (Some h) (Some f) random = Ok g /\
       Grid_inv g /\ height g = h - 2 /\ width g = w - 2 /\
       forall r c, 0 <= r < h - 2 -> 0 <= c < w - 2 ->
         cell (grid g) (Z.to_nat r) (Z.to_nat c) =
           if decide ((h - 2 - Z.of_nat ph) / 2 <= r
                        < (h - 2 - Z.of_nat ph) / 2 + Z.of_nat ph /\
                      (w - 2 - Z.of_nat pw) / 2 <= c
                        < (w - 2 - Z.of_nat pw) / 2 + Z.of_nat pw)
           then cell array (Z.to_nat (r - (h - 2 - Z.of_nat ph) / 2))
                           (Z.to_nat (c - (w - 2 - Z.of_nat pw) / 2))
           else Some 0).
Proof.
  intros Hw Hh. rewrite init_explicit by done. cbv zeta. unfold read_from_file.
  split.
  - intros e ->. done.
  - intros array ph pw -> Harr Hph Hpw. cbn [bind].
    set (self := mkGrid true 60 [3] [2; 3] "moore" (w - 2) (h - 2)
                   (np.zeros (h - 2) (w - 2))).
    assert (Hinv : Grid_inv self)
      by (split; [apply zeros_rectangular | by left]).
    destruct (centre_grid_fits self array ph pw Hinv Harr Hph Hpw)
      as (g' & -> & Hrect & Hcell).
    eexists. split; [reflexivity|]. simpl.
    split; [split; [done | by left]|]. split; [done|]. split; [done|].
    intros r c Hr Hc. rewrite (Hcell r c Hr Hc). simpl.
    case_decide; [done|]. apply zeros_cell; lia.
Qed.

Lemma init_from_file_witness :
  5 <= 11 /\ 5 <= 11 /\
  genfromtxt env1 "glider.txt" = Ok glider /\ np.rectangular 3 3 glider /\
  exists g,
    __init__ env1 (Some 11) (Some 11) (Some "glider.txt") true = Ok g /\
    Grid_inv g /\ height g = 11 - 2 /\ width g = 11 - 2 /\
    forall r c, 0 <= r < 11 - 2 -> 0 <= c < 11 - 2 ->
      cell (grid g) (Z.to_nat r) (Z.to_nat c) =
        if decide ((11 - 2 - 3) / 2 <= r < (11 - 2 - 3) / 2 + 3 /\
                   (11 - 2 - 3) / 2 <= c < (11 - 2 - 3) / 2 + 3)
        then cell glider (Z.to_nat (r - (11 - 2 - 3) / 2))
                         (Z.to_nat (c - (11 - 2 - 3) / 2))
        else Some 0.
Proof.
  split; [lia|]. split; [lia|]. split; [reflexivity|].
  split; [by apply rectangular_dec|].
  apply (proj2 (init_from_file env1 11 11 "glider.txt" true
                  ltac:(lia) ltac:(lia)) glider 3%nat 3%nat eq_refl).
  - by apply rectangular_dec.
  - by vm_compute.
  - by vm_compute.
Defined.

(** ** Frames *)

Lemma append_assoc (a b c : string) :
  String.append (String.append a b) c = String.append a (String.append b c).
Proof.
  induction a as [|x a IH]; [done|].
  change (String x (String.append (String.append a b) c)
          = String x (String.append a (String.append b c))).
  by f_equal.
Qed.

Lemma append_nil_r (a : string) : String.append a EmptyString = a.
Proof.
  induction a as [|x a IH]; [done|].
  change (String x (String.append a EmptyString) = String x a). by f_equal.
Qed.

Lemma count_newlines_append (a b : string) :
  count_newlines (String.append a b) = (count_newlines a + count_newlines b)%nat.
Proof.
  induction a as [|x a IH]; [done|].
  change (count_newlines (String x (String.append a b))
          = (count_newlines (String x a) + count_newlines b)%nat).
  cbn [count_newlines]. rewrite IH. lia.
Qed.

Lemma count_newlines_str_mul (n : Z) : count_newlines (str_mul em_dash n) = 0%nat.
Proof.
  unfold str_mul. induction (Z.to_nat n) as [|k IH]; [done|].
  cbn [replicate fold_right]. rewrite count_newlines_append, IH. done.
Qed.

Lemma count_newlines_render_row (row : list Z) :
  count_newlines (render_row row) = 0%nat.
Proof.
  unfold render_row. induction row as [|x row IH]; [done|].
  cbn [fold_right]. rewrite count_newlines_append, IH.
  by destruct (np.nonzero x).
Qed.

Lemma count_newlines_frame_lines (rows : list (list Z)) :
  count_newlines (frame_lines rows) = length rows.
Proof.
  induction rows as [|row rows IH]; [done|].
  cbn [frame_lines fold_right length]. fold (frame_lines rows).
  rewrite count_newlines_append, IH. unfold row_line.
  rewrite !count_newlines_append, count_newlines_render_row.
  change (count_newlines "|") with 0%nat.
  change (count_newlines newline) with 1%nat. lia.
Qed.

(** The loop of [__str__] from row [k] on appends the lines of the
    rows it meets. *)
Lemma str_loop (self : Grid) (rows : list (list Z)) :
  forall (k : nat) (top : string),
    (forall m row, rows !! m = Some row -> grid self !! (k + m)%nat = Some row) ->
    for_each (Z.of_nat <$> seq k (length rows))
      (fun i top =>
         do row <- grid_row self i;
         Ok (String.append top
               (String.append "|"
                  (String.append (render_row row) (String.append "|" newline)))))
      top
    = Ok (String.append top (frame_lines rows)).
Proof.
  induction rows as [|row rows IH]; intros k top Hrows.
  - simpl. by rewrite append_nil_r.
  - pose proof (Hrows 0%nat row eq_refl) as Hk. rewrite Nat.add_0_r in Hk.
    pose proof (lookup_lt_Some _ _ _ Hk) as Hlt.
    simpl length. simpl seq. rewrite fmap_cons. cbn [for_each].
    unfold grid_row at 1. rewrite index_in_range by lia. cbn [bind].
    rewrite Nat2Z.id, Hk. cbn [bind].
    rewrite IH.
    + change (frame_lines (row :: rows))
        with (String.append (row_line row) (frame_lines rows)).
      unfold row_line. by rewrite append_assoc.
    + intros m r Hm. replace (S k + m)%nat with (k + S m)%nat by lia.
      by apply Hrows.
Qed.

Lemma render_row_liveness (r r' : list Z) :
  np.nonzero <$> r' = np.nonzero <$> r -> render_row r' = render_row r.
Proof.
  revert r'. induction r as [|x r IH]; intros [|x' r'] H; try done.
  simpl in H. inversion H as [[Hx Hr]]. unfold render_row in *. simpl.
  rewrite Hx. f_equal. by apply IH.
Qed.

Lemma frame_lines_liveness (a a' : np.ndarray) :
  liveness a' = liveness a -> frame_lines a' = frame_lines a.
Proof.
  unfold liveness.
  revert a'. induction a as [|r a IH]; intros [|r' a'] H; try done.
  simpl in H. inversion H as [[Hr Ha]]. simpl. unfold row_line.
  rewrite (render_row_liveness r r' Hr). f_equal. by apply IH.
Qed.

Lemma __str___closed (self : Grid) :
  Grid_inv self ->
  __str__ self =
    Ok (String.append (str_mul em_dash (width self + 2))
          (String.append newline
             (String.append (frame_lines (grid self))
                (str_mul em_dash (width self + 2))))).
Proof.
  intros [[Hlen _] _]. unfold __str__, range. rewrite <- Hlen.
  rewrite (str_loop self (grid self) 0%nat); [|by intros m row Hm].
  cbn [bind]. by rewrite !append_assoc.
Qed.

(** X8. The shape of a frame.  [__str__] returns a border of
    [width + 2] dashes, then one line per grid row between two walls,
    then the same border; that is [height + 2] lines; and the frame only
    depends on which cells are non-zero, not on their values. *)
Theorem __str___frame (self : Grid) :
  Grid_inv self ->
  exists frame,
    __str__ self = Ok frame /\
    frame = String.append (str_mul em_dash (width self + 2))
              (String.append newline
                 (String.append (frame_lines (grid self))
                    (str_mul em_dash (width self + 2)))) /\
    count_newlines frame = S (Z.to_nat (height self)) /\
    forall self',
      Grid_inv self' -> width self' = width self ->
      liveness (grid self') = liveness (grid self) ->
      __str__ self' = Ok frame.
Proof.
  intros Hinv. eexists. split; [by apply __str___closed|]. split; [done|].
  split.
  - rewrite !count_newlines_append, !count_newlines_str_mul,
      count_newlines_frame_lines.
    destruct Hinv as [[Hlen _] _]. rewrite Hlen. simpl. lia.
  - intros self' Hinv' Hw Hlive. rewrite (__str___closed self' Hinv'), Hw.
    by rewrite (frame_lines_liveness _ _ Hlive).
Qed.

Lemma blinker_stained_inv : Grid_inv blinker_stained.
Proof. split; [by apply rectangular_dec | by left]. Qed.

Lemma __str___frame_witness :
  Grid_inv blinker /\ Grid_inv blinker_stained /\
  width blinker_stained = width blinker /\
  liveness (grid blinker_stained) = liveness (grid blinker) /\
  exists frame,
    __str__ blinker = Ok frame /\
    count_newlines frame = 6%nat /\
    __str__ blinker_stained = Ok frame.
Proof.
  split; [exact blinker_inv|]. split; [exact blinker_stained_inv|].
  split; [reflexivity|]. split; [reflexivity|].
  destruct (__str___frame blinker blinker_inv) as (frame & Hf & _ & Hn & Hsame).
  exists frame. split; [exact Hf|]. split; [exact Hn|].
  exact (Hsame blinker_stained blinker_stained_inv eq_refl eq_refl).
Defined.

(** ** The preset patterns *)

Lemma put_spec (h w : nat) (a : np.ndarray) (i j : nat) (v : Z) :
  np.rectangular h w a -> (i < h)%nat -> (j < w)%nat ->
  np.rectangular h w (np.put a i j v) /\
  forall r c, (r < h)%nat -> (c < w)%nat ->
    cell (np.put a i j v) r c =
      if decide (r = i /\ c = j) then Some v else cell a r c.
Proof.
  intros Hr Hi Hj. unfold np.put. split.
  - destruct Hr as [Hh Hw]. split; [by rewrite length_alter|].
    apply Forall_alter; [exact Hw|]. intros row Hrow. by rewrite length_insert.
  - intros r c Hr' Hc'. unfold cell. rewrite list_lookup_alter.
    destruct (lookup_lt_is_Some_2 a r) as [row Hrow]; [destruct Hr; lia|].
    pose proof (rectangular_row h w a r row Hr Hrow) as Hlen.
    destruct (decide (i = r)) as [<-|Hne]; rewrite Hrow; simpl.
    + destruct (decide (c = j)) as [->|Hnc].
      * rewrite decide_True by done. apply list_lookup_insert_eq. lia.
      * rewrite decide_False by tauto. by apply list_lookup_insert_ne.
    + rewrite decide_False by (intros [? ?]; congruence). done.
Qed.

(** The same with integer coordinates. *)
Lemma put_cell (h w : nat) (a : np.ndarray) (i j r c v : Z) :
  np.rectangular h w a ->
  0 <= i < Z.of_nat h -> 0 <= j < Z.of_nat w ->
  0 <= r < Z.of_nat h -> 0 <= c < Z.of_nat w ->
  cell (np.put a (Z.to_nat i) (Z.to_nat j) v) (Z.to_nat r) (Z.to_nat c) =
    if decide (r = i /\ c = j) then Some v else cell a (Z.to_nat r) (Z.to_nat c).
Proof.
  intros Ha Hi Hj Hr Hc.
  destruct (put_spec h w a (Z.to_nat i) (Z.to_nat j) v Ha) as [_ Hcell]; [lia..|].
  rewrite Hcell by lia.
  destruct (decide (r = i /\ c = j)) as [[-> ->]|Hne].
  - by rewrite decide_True.
  - rewrite decide_False; [done|]. intros [E1 E2]. apply Hne. lia.
Qed.

Lemma put_rectangular (h w : nat) (a : np.ndarray) (i j v : Z) :
  np.rectangular h w a ->
  0 <= i < Z.of_nat h -> 0 <= j < Z.of_nat w ->
  np.rectangular h w (np.put a (Z.to_nat i) (Z.to_nat j) v).
Proof. intros Ha Hi Hj. apply put_spec; [done | lia..]. Qed.

Lemma setitem_put (h w : nat) (a : np.ndarray) (r c v : Z) :
  np.rectangular h w a -> 0 <= r < Z.of_nat h -> 0 <= c < Z.of_nat w ->
  np.setitem a r c v = Ok (np.put a (Z.to_nat r) (Z.to_nat c) v).
Proof.
  intros Ha Hr Hc. unfold np.setitem.
  rewrite (shape_rectangular h w a Ha) by lia.
  by rewrite !index_in_range by lia.
Qed.

Lemma slice_indices_3 (n : nat) (a : Z) :
  0 <= a -> a + 3 <= Z.of_nat n ->
  np.slice_indices n a (a + 3)
  = [Z.to_nat a; Z.to_nat (a + 1); Z.to_nat (a + 2)].
Proof.
  intros Ha Hn. unfold np.slice_indices.
  replace (a <? 0) with false by lia. replace (a + 3 <? 0) with false by lia.
  rewrite !Z.min_l by lia. replace (a + 3 - a) with 3 by lia.
  replace (Z.to_nat (a + 1)) with (S (Z.to_nat a)) by lia.
  by replace (Z.to_nat (a + 2)) with (S (S (Z.to_nat a))) by lia.
Qed.

(** A slice of an axis shorter than 3 selects fewer than 3 positions. *)
Lemma slice_indices_short (n : nat) (start stop : Z) :
  (length (np.slice_indices n start stop) <= n)%nat.
Proof.
  unfold np.slice_indices. cbv beta zeta. rewrite length_seq.
  destruct (start <? 0) eqn:E1, (stop <? 0) eqn:E2; lia.
Qed.

Lemma broadcast_3_short (n : nat) :
  (n < 3)%nat -> np.broadcast [1; 1; 1] n = Raise ValueError.
Proof.
  intros Hn. unfold np.broadcast.
  by destruct n as [|[|[|n]]]; [..|lia].
Qed.

Lemma inv_shape_pos (self : Grid) :
  Grid_inv self -> 0 < height self ->
  np.shape (grid self) = (Z.to_nat (height self), Z.to_nat (width self)).
Proof. intros Hinv Hh. apply shape_rectangular; [apply Hinv | lia]. Qed.

Lemma inv_shape_rows (self : Grid) :
  Grid_inv self -> fst (np.shape (grid self)) = Z.to_nat (height self).
Proof. intros [[Hlen _] _]. by unfold np.shape. Qed.

(** X9. [add_glider] succeeds exactly on grids of at least 3 rows
    and 3 columns, so on every grid the constructor builds.  It then
    sets five cells to 1, the row below the middle from one column left
    to one column right of the middle, the cell right of the middle and
    the cell above the middle, and leaves every other cell as it was. *)
Theorem add_glider_spec (self : Grid) :
  Grid_inv self ->
  (is_ok (add_glider self) <-> 3 <= height self /\ 3 <= width self) /\
  (3 <= height self -> 3 <= width self ->
   let mh := height self / 2 in
   let mw := width self / 2 in
   exists g',
     add_glider self = Ok (with_grid self g') /\
     np.rectangular (Z.to_nat (height self)) (Z.to_nat (width self)) g' /\
     forall r c, 0 <= r < height self -> 0 <= c < width self ->
       cell g' (Z.to_nat r) (Z.to_nat c) =
         if decide ((r = mh + 1 /\ mw - 1 <= c <= mw + 1) \/
                    (r = mh /\ c = mw + 1) \/
                    (r = mh - 1 /\ c = mw))
         then Some 1
         else cell (grid self) (Z.to_nat r) (Z.to_nat c)).
Proof.
  intros Hinv.
  assert (Hgood : 3 <= height self -> 3 <= width self ->
            exists g',
              add_glider self = Ok (with_grid self g') /\
              np.rectangular (Z.to_nat (height self)) (Z.to_nat (width self)) g' /\
              forall r c, 0 <= r < height self -> 0 <= c < width self ->
                cell g' (Z.to_nat r) (Z.to_nat c) =
                  if decide ((r = height self / 2 + 1 /\
                              width self / 2 - 1 <= c <= width self / 2 + 1) \/
                             (r = height self / 2 /\ c = width self / 2 + 1) \/
                             (r = height self / 2 - 1 /\ c = width self / 2))
                  then Some 1
                  else cell (grid self) (Z.to_nat r) (Z.to_nat c)).
  { intros Hh Hw.
    pose proof (half_bounds (height self)) as Hmh.
    pose proof (half_bounds (width self)) as Hmw.
    set (mh := height self / 2) in *. set (mw := width self / 2) in *.
    pose proof (inv_shape self Hinv) as Hrect.
    set (H := Z.to_nat (height self)) in *. set (W := Z.to_nat (width self)) in *.
    assert (HH : Z.of_nat H = height self) by (subst H; lia).
    assert (HW : Z.of_nat W = width self) by (subst W; lia).
    pose proof (put_rectangular H W _ (mh + 1) (mw - 1) 1 Hrect
                  ltac:(lia) ltac:(lia)) as Hr1.
    pose proof (put_rectangular H W _ (mh + 1) (mw - 1 + 1) 1 Hr1
                  ltac:(lia) ltac:(lia)) as Hr2.
    pose proof (put_rectangular H W _ (mh + 1) (mw - 1 + 2) 1 Hr2
                  ltac:(lia) ltac:(lia)) as Hr3.
    pose proof (put_rectangular H W _ mh (mw + 1) 1 Hr3
                  ltac:(lia) ltac:(lia)) as Hr4.
    pose proof (put_rectangular H W _ (mh - 1) mw 1 Hr4
                  ltac:(lia) ltac:(lia)) as Hr5.
    eexists. split; [|split; [exact Hr5|]].
    - unfold add_glider, np.setitem_cols. fold mh mw.
      rewrite (inv_shape_pos self Hinv) by lia. fold H W.
      rewrite index_in_range by lia. cbn [bind].
      replace (mw + 2) with (mw - 1 + 3) by lia.
      rewrite slice_indices_3 by lia. cbn [length np.broadcast Nat.eqb bind].
      cbn [zip zip_with fold_left fst snd].
      rewrite (setitem_put H W _ mh (mw + 1) 1 Hr3) by lia. cbn [bind].
      rewrite (setitem_put H W _ (mh - 1) mw 1 Hr4) by lia. done.
    - intros r c Hr Hc.
      rewrite (put_cell H W _ (mh - 1) mw r c 1 Hr4) by lia.
      rewrite (put_cell H W _ mh (mw + 1) r c 1 Hr3) by lia.
      rewrite (put_cell H W _ (mh + 1) (mw - 1 + 2) r c 1 Hr2) by lia.
      rewrite (put_cell H W _ (mh + 1) (mw - 1 + 1) r c 1 Hr1) by lia.
      rewrite (put_cell H W _ (mh + 1) (mw - 1) r c 1 Hrect) by lia.
      clear - Hr Hc Hmh Hmw Hh Hw.
      repeat case_decide; first [reflexivity | lia]. }
  split; [|exact Hgood]. split.
  - intros Hok. destruct (decide (3 <= height self)) as [Hh|Hh].
    + split; [done|]. destruct (decide (3 <= width self)) as [Hw|Hw]; [done|].
      exfalso. revert Hok. unfold add_glider, np.setitem_cols.
      rewrite (inv_shape_pos self Hinv) by lia.
      pose proof (half_bounds (height self)).
      rewrite index_in_range by lia. cbn [bind].
      rewrite broadcast_3_short; [done|].
      pose proof (slice_indices_short (Z.to_nat (width self))
                    (width self / 2 - 1) (width self / 2 + 2)). lia.
    + exfalso. revert Hok. unfold add_glider, np.setitem_cols.
      pose proof (inv_shape_rows self Hinv) as Hrows.
      destruct (np.shape (grid self)) as [h w]. simpl in Hrows. subst h.
      pose proof (half_bounds (height self)).
      rewrite index_invalid; [done|]. unfold valid_index. lia.
  - intros [Hh Hw]. destruct (Hgood Hh Hw) as (g' & -> & _). done.
Qed.
